(** * A shallow embedding of go-foxpro-dbf's reader (reader.go)

    The DBF handle is modelled as an explicit state; every method of
    [*DBF] becomes a function [DBF -> option (result * DBF)] where [None]
    stands for a Go run-time panic (index out of range, nil dereference)
    and the result is the Go multiple return value, error included.
    The byte sources are modelled as Go's [bytes.Reader] (the reader the
    package documents for [OpenStream]); every call on a source is
    appended to a trace so that "no I/O was done" can be stated.
    Bytes are integers in [0, 256). *)

From Stdlib Require Import ZArith List Bool Lia.
From Stdlib Require Import Floats.SpecFloat.
Import ListNotations.
Open Scope Z_scope.

(** ** Go machine integers and encoding/binary *)

Module Go.

(** Unsigned wrap-around to [w] bits. *)
Definition uwrap (w x : Z) : Z := x mod 2 ^ w.

(** Two's complement wrap-around to [w] bits ([int64(...)] arithmetic). *)
Definition swrap (w x : Z) : Z := (x + 2 ^ (w - 1)) mod 2 ^ w - 2 ^ (w - 1).

Fixpoint le_bytes (bs : list Z) : Z :=
  match bs with
  | [] => 0
  | b :: r => b + 256 * le_bytes r
  end.

Definition be_bytes (bs : list Z) : Z := le_bytes (rev bs).

(** [binary.LittleEndian.Uint32]: panics when fewer than 4 bytes. *)
Definition LEUint32 (b : list Z) : option Z :=
  if (Z.of_nat (length b) <? 4) then None else Some (le_bytes (firstn 4 b)).

Definition LEUint64 (b : list Z) : option Z :=
  if (Z.of_nat (length b) <? 8) then None else Some (le_bytes (firstn 8 b)).

Definition BEUint32 (b : list Z) : option Z :=
  if (Z.of_nat (length b) <? 4) then None else Some (be_bytes (firstn 4 b)).

(** [binary.LittleEndian.PutUint32], the encoder matching [Uint32]. *)
Definition PutUint32 (x : Z) : list Z :=
  [x mod 256; (x / 256) mod 256; (x / 65536) mod 256; (x / 16777216) mod 256].

(** Slice expression [s[lo:hi]]: panics out of bounds. *)
Definition slice {A} (s : list A) (lo hi : Z) : option (list A) :=
  if (0 <=? lo) && (lo <=? hi) && (hi <=? Z.of_nat (length s))
  then Some (firstn (Z.to_nat (hi - lo)) (skipn (Z.to_nat lo) s))
  else None.

(** Index expression [s[i]]: panics out of bounds. *)
Definition index {A} (s : list A) (i : Z) : option A :=
  if (i <? 0) then None else nth_error s (Z.to_nat i).

(** Assignment [s[i] = x] on an in-range index. *)
Fixpoint set_nth {A} (s : list A) (i : nat) (x : A) : list A :=
  match s, i with
  | [], _ => []
  | _ :: r, O => x :: r
  | y :: r, S j => y :: set_nth r j x
  end.

(** IEEE-754 binary64 as [SpecFloat]'s [spec_float] with prec 53, emax 1024. *)
Definition float64 := spec_float.

(** [float64(u)] for an integer: round to nearest even. *)
Definition float64_of_Z (z : Z) : float64 := binary_normalize 53 1024 z 0 false.

Definition div64 (x y : float64) : float64 := SFdiv 53 1024 x y.

(** [math.Float64frombits]. *)
Definition Float64frombits (x : Z) : float64 :=
  let mx := Z.land x (2 ^ 52 - 1) in
  let ex := Z.land (Z.shiftr x 52) 2047 in
  let sx := Z.testbit x 63 in
  if ex =? 0 then
    (if mx =? 0 then S754_zero sx else S754_finite sx (Z.to_pos mx) (-1074))
  else if ex =? 2047 then
    (if mx =? 0 then S754_infinity sx else S754_nan)
  else S754_finite sx (Z.to_pos (mx + 2 ^ 52)) (ex - 1075).

End Go.

Import Go.

(** ** Errors *)

Inductive GoErr :=
| ErrEOF
| ErrBOF
| ErrIncomplete
| ErrInvalidField
| ErrNoFPTFile
| ErrNoDBFFile
| IoEOF                                (* io.EOF *)
| IoErrUnexpectedEOF                   (* io.ErrUnexpectedEOF *)
| ErrNegativeOffset                    (* bytes.Reader.ReadAt: negative offset *)
| ErrNegativePosition                  (* bytes.Reader.Seek: negative position *)
| ErrInvalidWhence                     (* bytes.Reader.Seek: invalid whence *)
| ErrNoDeleteFlag                      (* "Invalid record data, no delete flag ..." *)
| ErrUnsupportedFieldtype (t : Z)      (* "Unsupported fieldtype: %s" *)
| ErrUntestedVersion (v : Z)           (* "Untested DBF file version: ..." *)
| ErrOnField (name : list Z) (col : Z) (e : GoErr) (* RecordToMap's wrapper *)
| ErrLib (code : Z).                   (* error of an external library call *)

(** ** Values returned through [interface{}] *)

(** [time.Time]: the zero value, or the arguments given to
    [time.Date(y, m, d, 0, 0, 0, nsec, time.UTC)], which never fails
    (it normalises out-of-range components), or a value of [time.Parse]. *)
Inductive Time :=
| TimeZero
| TimeDateUTC (y mo d h mi s nsec : Z)
| TimeParsed (t : Z).

Inductive Value :=
| VNil
| VInt (z : Z)              (* untyped constant 0 *)
| VInt32 (z : Z)
| VInt64 (z : Z)
| VFloat64 (f : float64)
| VBool (b : bool)
| VString (s : list Z)
| VBytes (b : list Z)
| VTime (t : Time).

(** ** bytes.Reader *)

Record Reader := mkReader { rs : list Z; ri : Z }.

Inductive Source := SrcDBF | SrcFPT.

Inductive IOEvent :=
| EvReadAt (s : Source) (off n : Z)
| EvRead (s : Source) (n : Z)
| EvSeek (s : Source) (off whence : Z).

(** [copy(b, s[i:])] into a fresh zeroed buffer of length [n]. *)
Definition fill (n : Z) (src : list Z) : list Z * Z :=
  let got := firstn (Z.to_nat n) src in
  (got ++ repeat 0 (Z.to_nat n - length got), Z.of_nat (length got)).

(** [bytes.Reader.ReadAt(b, off)] with [len(b) = n]: buffer, count, error. *)
Definition ReadAt (r : Reader) (n off : Z) : list Z * Z * option GoErr :=
  if off <? 0 then (repeat 0 (Z.to_nat n), 0, Some ErrNegativeOffset)
  else if Z.of_nat (length (rs r)) <=? off then (repeat 0 (Z.to_nat n), 0, Some IoEOF)
  else let '(buf, m) := fill n (skipn (Z.to_nat off) (rs r)) in
       (buf, m, if m <? n then Some IoEOF else None).

(** [bytes.Reader.Read(b)] with [len(b) = n]. *)
Definition Read (r : Reader) (n : Z) : list Z * Z * option GoErr * Reader :=
  if Z.of_nat (length (rs r)) <=? ri r then (repeat 0 (Z.to_nat n), 0, Some IoEOF, r)
  else let '(buf, m) := fill n (skipn (Z.to_nat (ri r)) (rs r)) in
       (buf, m, None, mkReader (rs r) (ri r + m)).

(** [bytes.Reader.Seek(offset, whence)]. *)
Definition Seek (r : Reader) (off whence : Z) : Z * option GoErr * Reader :=
  let abs := if whence =? 0 then Some off
             else if whence =? 1 then Some (ri r + off)
             else if whence =? 2 then Some (Z.of_nat (length (rs r)) + off)
             else None in
  match abs with
  | None => (0, Some ErrInvalidWhence, r)
  | Some a => if a <? 0 then (0, Some ErrNegativePosition, r)
              else (a, None, mkReader (rs r) a)
  end.

(** [io.ReadFull(r, buf)] with [len(buf) = n > 0], as used by [binary.Read]. *)
Definition ReadFull (r : Reader) (n : Z) : list Z * option GoErr * Reader :=
  let '(buf, m, err, r') := Read r n in
  match err with
  | Some e => (buf, Some e, r')
  | None => if m <? n
            then (* the next Read finds the reader exhausted *)
              (buf, Some IoErrUnexpectedEOF, r')
            else (buf, None, r')
  end.

(** ** Structs *)

Record DBFHeader := mkDBFHeader {
  FileVersion : Z; ModYear : Z; ModMonth : Z; ModDay : Z;
  NumRec : Z;        (* uint32 *)
  FirstRec : Z;      (* uint16 *)
  RecLen : Z;        (* uint16 *)
  Reserved : list Z; TableFlags : Z; CodePage : Z }.

Record FieldHeader := mkFieldHeader {
  Name : list Z;     (* [11]byte *)
  Type_ : Z;         (* Type *)
  Pos : Z;           (* uint32 *)
  Len : Z;           (* uint8 *)
  Decimals : Z;      (* uint8 *)
  Flags : Z; Next : Z; Step : Z; FReserved : list Z }.

Record FPTHeader := mkFPTHeader { NextFree : Z; Unused : list Z; BlockSize : Z }.

(** [Record]: deleted flag and the decoded values. *)
Record RecordT := mkRecord { Deleted : bool; rdata : list Value }.

(** The [Decoder] interface: [Decode(in []byte) ([]byte, error)]. *)
Definition Decoder := list Z -> list Z * option GoErr.

(** [UTF8Decoder.Decode]: returns its input. *)
Definition UTF8Decoder : Decoder := fun inp => (inp, None).

(** Functions of the Go standard library the decoder calls, left abstract:
    [strings.TrimSpace], [strconv.ParseInt(s, 10, 64)],
    [strconv.ParseFloat(s, 64)] and [time.Parse("20060102", s)]. *)
Record GoLib := mkGoLib {
  TrimSpace : list Z -> list Z;
  ParseInt : list Z -> Z * option GoErr;
  ParseFloat : list Z -> float64 * option GoErr;
  TimeParse : list Z -> Time * option GoErr }.

(** The [DBF] struct; [trace] records the calls made on [r] and [fptr]. *)
Record DBF := mkDBF {
  header : DBFHeader;
  fptheader : option FPTHeader;
  r : Reader;
  fptr : option Reader;
  dec : Decoder;
  fields : list FieldHeader;
  recpointer : Z;    (* uint32 *)
  trace : list IOEvent }.

Definition set_recpointer (d : DBF) (p : Z) : DBF :=
  mkDBF (header d) (fptheader d) (r d) (fptr d) (dec d) (fields d) p (trace d).

Definition set_fptr (d : DBF) (f : Reader) (ev : IOEvent) : DBF :=
  mkDBF (header d) (fptheader d) (r d) (Some f) (dec d) (fields d) (recpointer d)
        (trace d ++ [ev]).

Definition log_io (d : DBF) (ev : IOEvent) : DBF :=
  mkDBF (header d) (fptheader d) (r d) (fptr d) (dec d) (fields d) (recpointer d)
        (trace d ++ [ev]).

(** ** The state monad of the methods: [None] is a panic *)

Definition M (A : Type) := DBF -> option (A * DBF).

Definition ret {A} (a : A) : M A := fun d => Some (a, d).
Definition bind {A B} (m : M A) (k : A -> M B) : M B :=
  fun d => match m d with None => None | Some (a, d') => k a d' end.
Definition panic {A} : M A := fun _ => None.
Definition get : M DBF := fun d => Some (d, d).
Definition put (d : DBF) : M unit := fun _ => Some (tt, d).
Definition lift {A} (o : option A) : M A :=
  fun d => match o with None => None | Some a => Some (a, d) end.

Notation "x <- m ;; k" := (bind m (fun x => k))
  (at level 61, m at next level, right associativity).

(** ** Navigation *)

Definition NumFields (d : DBF) : Z := uwrap 16 (Z.of_nat (length (fields d))).

(** [GoTo(recno uint32) error] *)
Definition GoTo (recno : Z) : M (option GoErr) :=
  d <- get ;;
  if NumRec (header d) <=? recno then
    _ <- put (set_recpointer d (NumRec (header d))) ;; ret (Some ErrEOF)
  else
    _ <- put (set_recpointer d recno) ;; ret None.

(** [Skip(offset int64) error] *)
Definition Skip (offset : Z) : M (option GoErr) :=
  d <- get ;;
  let newval := swrap 64 (recpointer d + offset) in
  if NumRec (header d) <=? newval then
    _ <- put (set_recpointer d (NumRec (header d))) ;; ret (Some ErrEOF)
  else if newval <? 0 then
    _ <- put (set_recpointer d 0) ;; ret (Some ErrBOF)
  else
    _ <- put (set_recpointer d newval) ;; ret None.

(** ** Raw reads *)

(** [readField(recordpos uint32, fieldpos int) ([]byte, error)] *)
Definition readField (recordpos fieldpos : Z) : M (list Z * option GoErr) :=
  d <- get ;;
  if NumRec (header d) <=? recordpos then ret ([], Some ErrEOF)
  else if (fieldpos <? 0) || (NumFields d <? fieldpos) then ret ([], Some ErrInvalidField)
  else
    f <- lift (index (fields d) fieldpos) ;;
    let pos := FirstRec (header d) + recordpos * RecLen (header d) + Pos f in
    let '(buf, read, err) := ReadAt (r d) (Len f) pos in
    _ <- put (log_io d (EvReadAt SrcDBF pos (Len f))) ;;
    match err with
    | Some e => ret (buf, Some e)
    | None => if negb (read =? Len f) then ret (buf, Some ErrIncomplete)
              else ret (buf, None)
    end.

(** [readRecord(recordpos uint32) ([]byte, error)] *)
Definition readRecord (recordpos : Z) : M (list Z * option GoErr) :=
  d <- get ;;
  if NumRec (header d) <=? recordpos then ret ([], Some ErrEOF)
  else
    let pos := FirstRec (header d) + recordpos * RecLen (header d) in
    let '(buf, read, err) := ReadAt (r d) (RecLen (header d)) pos in
    _ <- put (log_io d (EvReadAt SrcDBF pos (RecLen (header d)))) ;;
    match err with
    | Some e => ret (buf, Some e)
    | None => if negb (read =? RecLen (header d)) then ret (buf, Some ErrIncomplete)
              else ret (buf, None)
    end.

(** ** Memo file *)

(** [readFPT(blockdata []byte) ([]byte, bool, error)] *)
Definition readFPT (blockdata : list Z) : M (list Z * bool * option GoErr) :=
  d <- get ;;
  match fptr d with
  | None => ret ([], false, Some ErrNoFPTFile)
  | Some f =>
    block <- lift (LEUint32 blockdata) ;;
    h <- lift (fptheader d) ;;
    let off := BlockSize h * block in
    let '(_, serr, f1) := Seek f off 0 in
    _ <- put (set_fptr d f1 (EvSeek SrcFPT off 0)) ;;
    match serr with
    | Some e => ret ([], false, Some e)
    | None =>
      let '(hbuf, _, err, f2) := Read f1 8 in
      d1 <- get ;;
      _ <- put (set_fptr d1 f2 (EvRead SrcFPT 8)) ;;
      match err with
      | Some e => ret ([], false, Some e)
      | None =>
        sign <- lift (BEUint32 (firstn 4 hbuf)) ;;
        leng <- lift (BEUint32 (skipn 4 hbuf)) ;;
        if leng =? 0 then ret ([], sign =? 1, None)
        else
          let '(buf, read, err2, f3) := Read f2 leng in
          d2 <- get ;;
          _ <- put (set_fptr d2 f3 (EvRead SrcFPT leng)) ;;
          match err2 with
          | Some e => ret (buf, false, Some e)
          | None => if negb (read =? leng) then ret (buf, sign =? 1, Some ErrIncomplete)
                    else ret (buf, sign =? 1, None)
          end
      end
    end
  end.

(** [parseMemo(raw []byte) ([]byte, bool, error)] *)
Definition parseMemo (raw : list Z) : M (list Z * bool * option GoErr) :=
  res <- readFPT raw ;;
  let '(memo, isText, err) := res in
  match err with
  | Some e => ret ([], false, Some e)
  | None =>
    d <- get ;;
    if isText then
      let '(memo', err') := dec d memo in
      match err' with
      | Some e => ret ([], false, Some e)
      | None => ret (memo', isText, None)
      end
    else ret (memo, isText, None)
  end.

(** ** Date helpers *)

(** [jd.J2YMD] (vendored github.com/carlosjhr64/jd), Go [int] arithmetic:
    division truncates towards zero.  The argument is an [int(uint32)],
    so no intermediate value leaves the 64-bit range. *)
Definition J2YMD (d : Z) : Z * Z * Z :=
  let l := d + 68569 in
  let n := Z.quot (4 * l) 146097 in
  let l := l - Z.quot (146097 * n + 3) 4 in
  let i := Z.quot (4000 * (l + 1)) 1461001 in
  let l := l - Z.quot (1461 * i) 4 + 31 in
  let j := Z.quot (80 * l) 2447 in
  let k := l - Z.quot (2447 * j) 80 in
  let l := Z.quot j 11 in
  let j := j + 2 - 12 * l in
  let i := 100 * (n - 49) + i + l in
  (i, j, k).

(** [jd.YMD2J(i, j, k int) int], the inverse conversion of the same
    package, in Go [int] arithmetic: division truncates towards zero.  It
    is applied here to the dates J2YMD gives for uint32 day numbers, for
    which no intermediate value leaves the 64-bit range. *)
Definition YMD2J (i j k : Z) : Z :=
  k - 32075 + Z.quot (1461 * (i + 4800 + Z.quot (j - 14) 12)) 4
  + Z.quot (367 * (j - 2 - Z.quot (j - 14) 12 * 12)) 12
  - Z.quot (3 * Z.quot (i + 4900 + Z.quot (j - 14) 12) 100) 4.

(** [parseDateTime(raw []byte) (time.Time, error)] *)
Definition parseDateTime (raw : list Z) : option (Time * option GoErr) :=
  if negb (Z.of_nat (length raw) =? 8) then Some (TimeZero, Some ErrInvalidField)
  else
    match LEUint32 (firstn 4 raw), LEUint32 (skipn 4 raw) with
    | Some julDat, Some mSec =>
      let '(y, m, d) := J2YMD julDat in
      if (y <? 0) || (9999 <? y) then Some (TimeZero, None)
      else Some (TimeDateUTC y m d 0 0 0 (mSec * 1000000), None)
    | _, _ => None
    end.

Definition is_bytes (raw : list Z) (s : list Z) : bool :=
  (Z.of_nat (length raw) =? Z.of_nat (length s)) &&
  forallb (fun p => fst p =? snd p) (combine raw s).

Section Decode.

Variable lib : GoLib.

(** [parseDate(raw []byte) (time.Time, error)] *)
Definition parseDate (raw : list Z) : Time * option GoErr :=
  if is_bytes raw (repeat 32 8) then (TimeZero, None)
  else TimeParse lib raw.

(** [parseNumericInt(raw []byte) (int64, error)] *)
Definition parseNumericInt (raw : list Z) : Z * option GoErr :=
  let trimmed := TrimSpace lib raw in
  match trimmed with
  | [] => (0, None)
  | _ => ParseInt lib trimmed
  end.

(** [parseFloat(raw []byte) (float64, error)] *)
Definition parseFloat (raw : list Z) : float64 * option GoErr :=
  let trimmed := TrimSpace lib raw in
  match trimmed with
  | [] => (S754_zero false, None)
  | _ => ParseFloat lib (TrimSpace lib trimmed)
  end.

(** [toUTF8String(raw []byte) (string, error)] *)
Definition toUTF8String (raw : list Z) : M (list Z * option GoErr) :=
  d <- get ;;
  let '(utf8, err) := dec d raw in
  match err with
  | Some e => ret (raw, Some e)
  | None => ret (utf8, None)
  end.

(** [fieldDataToValue(raw []byte, fieldpos int) (interface{}, error)] *)
Definition fieldDataToValue (raw : list Z) (fieldpos : Z) : M (Value * option GoErr) :=
  d <- get ;;
  if (fieldpos <? 0) || (Z.of_nat (length (fields d)) <? fieldpos)
  then ret (VNil, Some ErrInvalidField)
  else
    f <- lift (index (fields d) fieldpos) ;;
    let t := Type_ f in
    if t =? 77 then (* "M" *)
      res <- parseMemo raw ;;
      let '(memo, isText, err) := res in
      if isText then ret (VString memo, err) else ret (VBytes memo, err)
    else if t =? 67 then (* "C" *)
      res <- toUTF8String raw ;; ret (VString (fst res), snd res)
    else if t =? 73 then (* "I" *)
      u <- lift (LEUint32 raw) ;; ret (VInt32 (swrap 32 u), None)
    else if t =? 66 then (* "B" *)
      u <- lift (LEUint64 raw) ;; ret (VFloat64 (Float64frombits u), None)
    else if t =? 68 then (* "D" *)
      let '(tm, err) := parseDate raw in ret (VTime tm, err)
    else if t =? 84 then (* "T" *)
      res <- lift (parseDateTime raw) ;; ret (VTime (fst res), snd res)
    else if t =? 76 then (* "L" *)
      ret (VBool (is_bytes raw [84]), None)
    else if t =? 86 then (* "V" *)
      ret (VBytes raw, None)
    else if t =? 89 then (* "Y" *)
      u <- lift (LEUint64 raw) ;;
      ret (VFloat64 (div64 (float64_of_Z u) (float64_of_Z 10000)), None)
    else if t =? 78 then (* "N", falling through to "F" when Decimals <> 0 *)
      if Decimals f =? 0 then
        let '(v, err) := parseNumericInt raw in ret (VInt64 v, err)
      else
        let '(v, err) := parseFloat raw in ret (VFloat64 v, err)
    else if t =? 70 then (* "F" *)
      let '(v, err) := parseFloat raw in ret (VFloat64 v, err)
    else ret (VNil, Some (ErrUnsupportedFieldtype t)).

(** The loop of [bytesToRecord]: [n] iterations left, at field [i],
    byte [offset] (a uint16), with [acc] the slice [rec.data]. *)
Fixpoint decodeFields (data : list Z) (deleted : bool) (n i : nat) (offset : Z)
    (acc : list Value) : M (option RecordT * option GoErr) :=
  match n with
  | O => ret (Some (mkRecord deleted acc), None)
  | S n' =>
    d <- get ;;
    fieldinfo <- lift (nth_error (fields d) i) ;;
    let hi := uwrap 16 (offset + Len fieldinfo) in
    raw <- lift (slice data offset hi) ;;
    res <- fieldDataToValue raw (Z.of_nat i) ;;
    let '(val, err) := res in
    match err with
    | Some e => ret (Some (mkRecord deleted acc), Some e)
    | None => decodeFields data deleted n' (S i) hi (set_nth acc i val)
    end
  end.

(** [bytesToRecord(data []byte) ( *Record, error)] *)
Definition bytesToRecord (data : list Z) : M (option RecordT * option GoErr) :=
  d0 <- lift (index data 0) ;;
  let deleted := d0 =? 42 in
  if negb deleted && negb (d0 =? 32) then ret (None, Some ErrNoDeleteFlag)
  else
    d <- get ;;
    let n := Z.to_nat (NumFields d) in
    decodeFields data deleted n 0 1 (repeat VNil n).

(** [Record() ( *Record, error)] *)
Definition Record_ : M (option RecordT * option GoErr) :=
  d <- get ;;
  res <- readRecord (recpointer d) ;;
  match snd res with
  | Some e => ret (None, Some e)
  | None => bytesToRecord (fst res)
  end.

(** [RecordAt(nrec uint32) ( *Record, error)] *)
Definition RecordAt (nrec : Z) : M (option RecordT * option GoErr) :=
  res <- readRecord nrec ;;
  match snd res with
  | Some e => ret (None, Some e)
  | None => bytesToRecord (fst res)
  end.

(** [Field(fieldpos int) (interface{}, error)] *)
Definition Field (fieldpos : Z) : M (Value * option GoErr) :=
  d <- get ;;
  res <- readField (recpointer d) fieldpos ;;
  match snd res with
  | Some e => ret (VNil, Some e)
  | None => fieldDataToValue (fst res) fieldpos
  end.

(** [FieldHeader.FieldName]: the name with trailing NULs removed. *)
Fixpoint drop_zeros (s : list Z) : list Z :=
  match s with
  | 0 :: t => drop_zeros t
  | _ => s
  end.

Definition FieldName (f : FieldHeader) : list Z := rev (drop_zeros (rev (Name f))).

Definition FieldNames (d : DBF) : list (list Z) := map FieldName (fields d).

(** A Go [map[string]interface{}]: assignment replaces the key's entry. *)
Definition GoMap := list (list Z * Value).

Definition map_set (m : GoMap) (k : list Z) (v : Value) : GoMap :=
  (k, v) :: filter (fun kv => negb (is_bytes (fst kv) k)) m.

(** The loop of [RecordToMap]. *)
Fixpoint mapFields (names : list (list Z)) (i : Z) (out : GoMap)
    : M (option GoMap * option GoErr) :=
  match names with
  | [] => ret (Some out, None)
  | fn :: rest =>
    res <- Field i ;;
    let '(val, err) := res in
    match err with
    | Some e => ret (Some out, Some (ErrOnField fn i e))
    | None => mapFields rest (i + 1) (map_set out fn val)
    end
  end.

(** [RecordToMap(nrec uint32) (map[string]interface{}, error)] *)
Definition RecordToMap (nrec : Z) : M (option GoMap * option GoErr) :=
  d <- get ;;
  err <- (if nrec <=? 0 then ret None
          else if negb (nrec =? recpointer d) then GoTo nrec
          else ret None) ;;
  match err with
  | Some e => ret (None, Some e)
  | None => d' <- get ;; mapFields (FieldNames d') 0 []
  end.

End Decode.

(** [Record.Field(pos int) (interface{}, error)] *)
Definition RecordField (rec : RecordT) (pos : Z) : option (Value * option GoErr) :=
  if (pos <? 0) || (Z.of_nat (length (rdata rec)) <? pos)
  then Some (VInt 0, Some ErrInvalidField)
  else match index (rdata rec) pos with
       | Some v => Some (v, None)
       | None => None
       end.

(** ** Opening *)

Definition sub (b : list Z) (lo hi : nat) : list Z := firstn (hi - lo) (skipn lo b).
Definition at_ (b : list Z) (i : nat) : Z := nth i b 0.

(** [binary.Read(r, binary.LittleEndian, h)] decoding of the 30 bytes of
    a [DBFHeader]. *)
Definition decodeDBFHeader (b : list Z) : DBFHeader :=
  mkDBFHeader (at_ b 0) (at_ b 1) (at_ b 2) (at_ b 3)
    (le_bytes (sub b 4 8)) (le_bytes (sub b 8 10)) (le_bytes (sub b 10 12))
    (sub b 12 28) (at_ b 28) (at_ b 29).

(** Decoding of the 33 bytes of a [FieldHeader] (little endian). *)
Definition decodeFieldHeader (b : list Z) : FieldHeader :=
  mkFieldHeader (sub b 0 11) (at_ b 11) (le_bytes (sub b 12 16)) (at_ b 16) (at_ b 17)
    (at_ b 18) (le_bytes (sub b 19 23)) (le_bytes (sub b 23 25)) (sub b 25 33).

(** Decoding of the 8 bytes of an [FPTHeader] (big endian). *)
Definition decodeFPTHeader (b : list Z) : FPTHeader :=
  mkFPTHeader (be_bytes (sub b 0 4)) (sub b 4 6) (be_bytes (sub b 6 8)).

(** [readDBFHeader(r io.ReadSeeker) ( *DBFHeader, error)] *)
Definition readDBFHeader (rd : Reader) : option DBFHeader * option GoErr * Reader :=
  let '(_, e1, rd1) := Seek rd 0 0 in
  match e1 with
  | Some e => (None, Some e, rd1)
  | None =>
    let '(buf, e2, rd2) := ReadFull rd1 30 in
    match e2 with
    | Some e => (None, Some e, rd2)
    | None => (Some (decodeDBFHeader buf), None, rd2)
    end
  end.

(** [validFileVersion(version byte) error] *)
Definition validFileVersion (version : Z) : option GoErr :=
  if (version =? 48) || (version =? 49) then None else Some (ErrUntestedVersion version).

(** The loop of [readHeaderFields]; [fuel] bounds the iterations and is
    never exhausted when it exceeds the length of the source, since every
    iteration starts 32 bytes further and a one-byte [Read] at or past the
    end fails with [io.EOF]. *)
Fixpoint readFieldsLoop (fuel : nat) (offset : Z) (acc : list FieldHeader) (rd : Reader)
    : list FieldHeader * option GoErr * Reader :=
  match fuel with
  | O => ([], Some IoEOF, rd)
  | S fuel' =>
    let '(_, e1, rd1) := Seek rd offset 0 in
    match e1 with
    | Some e => ([], Some e, rd1)
    | None =>
      let '(b, _, e2, rd2) := Read rd1 1 in
      match e2 with
      | Some e => ([], Some e, rd2)
      | None =>
        if at_ b 0 =? 13 then (acc, None, rd2)
        else
          let '(_, e3, rd3) := Seek rd2 (-1) 1 in
          match e3 with
          | Some e => ([], Some e, rd3)
          | None =>
            let '(buf, e4, rd4) := ReadFull rd3 33 in
            match e4 with
            | Some e => ([], Some e, rd4)
            | None => readFieldsLoop fuel' (offset + 32) (acc ++ [decodeFieldHeader buf]) rd4
            end
          end
      end
    end
  end.

(** [readHeaderFields(r io.ReadSeeker) ([]FieldHeader, error)] *)
Definition readHeaderFields (rd : Reader) : list FieldHeader * option GoErr * Reader :=
  readFieldsLoop (S (length (rs rd))) 32 [] rd.

(** [readFPTHeader(r io.ReadSeeker) ( *FPTHeader, error)] *)
Definition readFPTHeader (rd : Reader) : option FPTHeader * option GoErr * Reader :=
  let '(_, e1, rd1) := Seek rd 0 0 in
  match e1 with
  | Some e => (None, Some e, rd1)
  | None =>
    let '(buf, e2, rd2) := ReadFull rd1 8 in
    match e2 with
    | Some e => (None, Some e, rd2)
    | None => (Some (decodeFPTHeader buf), None, rd2)
    end
  end.

(** [prepareDBF(dbffile ReaderAtSeeker, dec Decoder) ( *DBF, error)] *)
Definition prepareDBF (dbffile : Reader) (dc : Decoder) : option DBF * option GoErr :=
  match readDBFHeader dbffile with
  | (None, err, _) => (None, err)
  | (Some _, Some e, _) => (None, Some e)
  | (Some h, None, rd1) =>
    match validFileVersion (FileVersion h) with
    | Some e => (None, Some e)
    | None =>
      let '(fs, err, rd2) := readHeaderFields rd1 in
      match err with
      | Some e => (None, Some e)
      | None => (Some (mkDBF h None rd2 None dc fs 0 []), None)
      end
    end
  end.

(** [prepareFPT(fptfile ReaderAtSeeker) error] *)
Definition prepareFPT (d : DBF) (fptfile : Reader) : DBF * option GoErr :=
  let '(h, err, rd) := readFPTHeader fptfile in
  match err, h with
  | Some e, _ => (d, Some e)
  | None, Some h' =>
    (mkDBF (header d) (Some h') (r d) (Some rd) (dec d) (fields d) (recpointer d) (trace d), None)
  | None, None => (d, None)
  end.

(** [OpenStream(dbffile, fptfile ReaderAtSeeker, dec Decoder) ( *DBF, error)];
    a nil [fptfile] is [None]. *)
Definition OpenStream (dbffile : Reader) (fptfile : option Reader) (dc : Decoder)
    : option DBF * option GoErr :=
  match prepareDBF dbffile dc with
  | (None, err) => (None, err)
  | (Some _, Some e) => (None, Some e)
  | (Some d, None) =>
    if negb (Z.land (TableFlags (header d)) 2 =? 0) then
      match fptfile with
      | None => (None, Some ErrNoFPTFile)
      | Some f =>
        let '(d', err) := prepareFPT d f in
        match err with
        | Some e => (None, Some e)
        | None => (Some d', None)
        end
      end
    else (Some d, None)
  end.

(** ** The other accessors of [DBF], [DBFHeader] and [FieldHeader] *)

(** [EOF() bool] *)
Definition EOF (d : DBF) : bool := NumRec (header d) <=? recpointer d.

(** [BOF() bool] *)
Definition BOF (d : DBF) : bool := recpointer d =? 0.

(** The loop of [FieldPos(fieldname string) int], from index [i]. *)
Fixpoint FieldPosFrom (fs : list FieldHeader) (fieldname : list Z) (i : Z) : Z :=
  match fs with
  | [] => -1
  | f :: rest =>
    if is_bytes (FieldName f) fieldname then i else FieldPosFrom rest fieldname (i + 1)
  end.

Definition FieldPos (d : DBF) (fieldname : list Z) : Z := FieldPosFrom (fields d) fieldname 0.

(** [DeletedAt(recordpos uint32) (bool, error)] *)
Definition DeletedAt (recordpos : Z) : M (bool * option GoErr) :=
  d <- get ;;
  if NumRec (header d) <=? recordpos then ret (false, Some ErrEOF)
  else
    let pos := FirstRec (header d) + recordpos * RecLen (header d) in
    let '(buf, read, err) := ReadAt (r d) 1 pos in
    _ <- put (log_io d (EvReadAt SrcDBF pos 1)) ;;
    match err with
    | Some e => ret (false, Some e)
    | None => if negb (read =? 1) then ret (false, Some ErrIncomplete)
              else ret (at_ buf 0 =? 42, None)
    end.

(** [Deleted() (bool, error)] *)
Definition Deleted_ : M (bool * option GoErr) :=
  d <- get ;; DeletedAt (recpointer d).

(** [DBFHeader.NumFields() uint16]: [h.FirstRec - 296] is computed in
    uint16 arithmetic. *)
Definition HeaderNumFields (h : DBFHeader) : Z := uwrap 16 (FirstRec h - 296) / 32.

(** [DBFHeader.FileSize() int64]: [h.NumFields()*32] is a uint16 and
    [h.NumRec*uint32(h.RecLen)] a uint32 product. *)
Definition FileSize (h : DBFHeader) : Z :=
  296 + uwrap 16 (HeaderNumFields h * 32) + uwrap 32 (NumRec h * RecLen h).

(** [string(b)] for a [byte] [b]: the UTF-8 encoding of the code point [b]. *)
Definition string_of_byte (b : Z) : list Z :=
  if b <? 128 then [b] else [Z.lor 192 (Z.shiftr b 6); Z.lor 128 (Z.land b 63)].

(** [FieldHeader.FieldType() string] *)
Definition FieldType (f : FieldHeader) : list Z := string_of_byte (Type_ f).

(** ** cast.go: a type assertion on the [interface{}] value, else the
    zero value of the type *)

Definition ToString (v : Value) : list Z :=
  match v with VString s => s | _ => [] end.

Definition ToTrimmedString (lib : GoLib) (v : Value) : list Z :=
  match v with VString s => TrimSpace lib s | _ => [] end.

Definition ToInt64 (v : Value) : Z :=
  match v with VInt64 i => i | _ => 0 end.

Definition ToFloat64 (v : Value) : float64 :=
  match v with VFloat64 f => f | _ => S754_zero false end.

Definition ToTime (v : Value) : Time :=
  match v with VTime t => t | _ => TimeZero end.

Definition ToBool (v : Value) : bool :=
  match v with VBool b => b | _ => false end.

(** ** A concrete table image *)

Module Fixture.

Definition le16 (x : Z) : list Z := [x mod 256; (x / 256) mod 256].
Definition le32 (x : Z) : list Z :=
  [x mod 256; (x / 256) mod 256; (x / 65536) mod 256; (x / 16777216) mod 256].

Definition fieldDesc (name : list Z) (typ pos len decs : Z) : list Z :=
  firstn 11 (name ++ repeat 0 11) ++ [typ] ++ le32 pos ++ [len; decs; 0] ++ repeat 0 13.

(** Two records of 6 bytes, fields "OK" (L, 1 byte) and "ID" (type
    [idtype], 4 bytes); [flags] is the table-flags byte. *)
Definition image_t (version flags idtype : Z) : list Z :=
  [version; 24; 1; 1] ++ le32 2 ++ le16 97 ++ le16 6 ++ repeat 0 16 ++ [flags; 0; 0; 0]
  ++ fieldDesc [79; 75] 76 1 1 0
  ++ fieldDesc [73; 68] idtype 2 4 0
  ++ [13]
  ++ [32; 84; 7; 0; 0; 0]
  ++ [42; 70; 255; 255; 255; 255].

Definition image (version flags : Z) : list Z := image_t version flags 73.

(** Stand-ins for the standard library calls the fixtures never reach. *)
Definition stdlib_stub : GoLib :=
  mkGoLib (fun s => s) (fun _ => (0, Some (ErrLib 1)))
          (fun _ => (S754_zero false, Some (ErrLib 2))) (fun _ => (TimeZero, Some (ErrLib 3))).

Definition open_or_empty (img : list Z) : DBF :=
  match fst (OpenStream (mkReader img 0) None UTF8Decoder) with
  | Some d => d
  | None => mkDBF (decodeDBFHeader []) None (mkReader [] 0) None UTF8Decoder [] 0 []
  end.

(** The table opened from [image 48 0]: version 0x30, no memo file. *)
Definition table : DBF := open_or_empty (image 48 0).

(** The table [prepareDBF] builds from an image, before any memo file. *)
Definition prepared (img : list Z) : DBF :=
  match fst (prepareDBF (mkReader img 0) UTF8Decoder) with
  | Some d => d
  | None => mkDBF (decodeDBFHeader []) None (mkReader [] 0) None UTF8Decoder [] 0 []
  end.

(** The same table with an unknown type tag "X" for its second field. *)
Definition table_x : DBF := open_or_empty (image_t 48 0 88).

(** The same table with a datetime ("T") second field. *)
Definition table_t : DBF := open_or_empty (image_t 48 0 84).

(** The same table with a currency ("Y") second field. *)
Definition table_y : DBF := open_or_empty (image_t 48 0 89).

(** A memo field and a table whose memo source is [fpt] (block size from
    its header), positioned as [readFPTHeader] leaves it. *)
Definition memo_field : FieldHeader :=
  mkFieldHeader [77; 69; 77; 79; 0; 0; 0; 0; 0; 0; 0] 77 1 4 0 0 0 0 (repeat 0 8).

Definition memo_table (fpt : list Z) : DBF :=
  mkDBF (mkDBFHeader 48 24 1 1 1 65 5 (repeat 0 16) 2 0) (Some (decodeFPTHeader fpt))
        (mkReader [] 0) (Some (mkReader fpt 8)) UTF8Decoder [memo_field] 0 [].

(** Memo header with block size 64; block 1 holds only 4 bytes. *)
Definition fpt_truncated : list Z :=
  [0; 0; 0; 2; 0; 0; 0; 64] ++ repeat 0 56 ++ [0; 0; 0; 1].

(** Block 1 declares a text payload of 10 bytes but holds 3. *)
Definition fpt_short_payload : list Z :=
  [0; 0; 0; 2; 0; 0; 0; 64] ++ repeat 0 56 ++ [0; 0; 0; 1; 0; 0; 0; 10; 65; 66; 67].

(** Block 1 declares an empty text payload. *)
Definition fpt_empty : list Z :=
  [0; 0; 0; 2; 0; 0; 0; 64] ++ repeat 0 56 ++ [0; 0; 0; 1; 0; 0; 0; 0].

End Fixture.

(** * Properties *)

Lemma table_opened :
  fst (OpenStream (mkReader (Fixture.image 48 0) 0) None UTF8Decoder) = Some Fixture.table.
Proof. vm_compute. reflexivity. Qed.

Lemma swrap64_small : forall x, -2 ^ 63 <= x < 2 ^ 63 -> swrap 64 x = x.
Proof.
  intros x Hx. unfold swrap.
  replace (64 - 1) with 63 by reflexivity.
  rewrite Z.mod_small; [lia|].
  replace (2 ^ 64) with (2 ^ 63 * 2) by reflexivity. lia.
Qed.

Lemma swrap64_high : forall x, 2 ^ 63 <= x < 2 ^ 64 -> swrap 64 x = x - 2 ^ 64.
Proof.
  intros x Hx. unfold swrap.
  replace (64 - 1) with 63 by reflexivity.
  rewrite <- (Z.mod_unique (x + 2 ^ 63) (2 ^ 64) 1 (x + 2 ^ 63 - 2 ^ 64)); [lia| |lia].
  replace (2 ^ 64) with (2 ^ 63 * 2) in * by reflexivity. lia.
Qed.

(** ** C1: out-of-range field positions *)

(** C1 as stated: readField and Record.Field return the invalid-field
    error for every record index and every field position outside
    [0, number of fields), without I/O and without indexing the list. *)
Definition C1_statement : Prop :=
  (forall d n p, (p < 0 \/ Z.of_nat (length (fields d)) <= p) ->
     readField n p d = Some (([], Some ErrInvalidField), d)) /\
  (forall rec p, (p < 0 \/ Z.of_nat (length (rdata rec)) <= p) ->
     RecordField rec p = Some (VInt 0, Some ErrInvalidField)).

(** C1 fails for a record index past the end: readField checks the
    record index first, so on the two-record table readField(2, -1)
    returns ErrEOF, not the invalid-field error. *)
Lemma readField_C1_counterexample : ~ C1_statement.
Proof.
  intros [H _].
  pose proof (H Fixture.table 2 (-1) (or_introl eq_refl)) as H1.
  vm_compute in H1. discriminate H1.
Qed.

(** C1 (amended): readField checks the record index first: at or past
    the last record it returns ErrEOF whatever the field position; below
    it, a field position below 0 or above NumFields gives
    ErrInvalidField.  Both return before any read on the source and leave
    the state (trace included) unchanged.  Record.Field returns
    ErrInvalidField for a position below 0 or above the row length,
    without indexing the row. *)
Theorem readField_out_of_range : forall d n p,
  (NumRec (header d) <= n -> readField n p d = Some (([], Some ErrEOF), d)) /\
  (n < NumRec (header d) -> p < 0 \/ NumFields d < p ->
     readField n p d = Some (([], Some ErrInvalidField), d)) /\
  (forall rec q, q < 0 \/ Z.of_nat (length (rdata rec)) < q ->
     RecordField rec q = Some (VInt 0, Some ErrInvalidField)).
Proof.
  intros d n p.
  unfold readField, RecordField, bind, get, ret.
  split; [|split].
  - intros Hn. replace (NumRec (header d) <=? n) with true by (symmetry; apply Z.leb_le; lia).
    reflexivity.
  - intros Hn Hp.
    replace (NumRec (header d) <=? n) with false by (symmetry; apply Z.leb_gt; lia).
    replace ((p <? 0) || (NumFields d <? p)) with true; [reflexivity|].
    destruct Hp as [Hp | Hp]; symmetry; apply orb_true_iff;
      [left | right]; apply Z.ltb_lt; exact Hp.
  - intros rec q Hq.
    replace ((q <? 0) || (Z.of_nat (length (rdata rec)) <? q)) with true; [reflexivity|].
    destruct Hq as [Hq | Hq]; symmetry; apply orb_true_iff;
      [left | right]; apply Z.ltb_lt; exact Hq.
Qed.

Lemma readField_out_of_range_witness :
  readField 2 2 Fixture.table = Some (([], Some ErrEOF), Fixture.table) /\
  readField 0 3 Fixture.table = Some (([], Some ErrInvalidField), Fixture.table) /\
  RecordField (mkRecord false [VNil]) 2 = Some (VInt 0, Some ErrInvalidField).
Proof.
  assert (E1 : NumRec (header Fixture.table) = 2) by (vm_compute; reflexivity).
  assert (E2 : NumFields Fixture.table = 2) by (vm_compute; reflexivity).
  split; [|split].
  - apply (proj1 (readField_out_of_range Fixture.table 2 2)). rewrite E1. lia.
  - apply (proj1 (proj2 (readField_out_of_range Fixture.table 0 3)));
      rewrite ?E1, ?E2; lia.
  - apply (proj2 (proj2 (readField_out_of_range Fixture.table 0 0))). cbn. lia.
Defined.

(** ** C5, C9: Skip *)

(** Skip as the specification words it, on mathematical integers. *)
Definition skip_by_spec (p n k : Z) : option GoErr * Z :=
  if n <=? p + k then (Some ErrEOF, n)
  else if p + k <? 0 then (Some ErrBOF, 0)
  else (None, p + k).

(** C5: Skip behaves as the claim states as long as
    [int64(recpointer) + offset] does not overflow.  When the position
    plus the offset reaches 2^63, the int64 sum wraps to a negative value
    and Skip returns ErrBOF with the pointer at 0, where the claim (and
    Skip's own comment, ErrBOF only when the pointer would become
    negative) expect ErrEOF with the pointer at record_count. *)
Theorem Skip_int64_overflow : forall d k,
  0 <= recpointer d <= NumRec (header d) -> NumRec (header d) < 2 ^ 32 ->
  -2 ^ 63 <= k < 2 ^ 63 ->
  (recpointer d + k < 2 ^ 63 ->
     Skip k d = Some (fst (skip_by_spec (recpointer d) (NumRec (header d)) k),
                      set_recpointer d (snd (skip_by_spec (recpointer d) (NumRec (header d)) k)))) /\
  (2 ^ 63 <= recpointer d + k ->
     Skip k d = Some (Some ErrBOF, set_recpointer d 0) /\
     skip_by_spec (recpointer d) (NumRec (header d)) k = (Some ErrEOF, NumRec (header d))).
Proof.
  intros d k Hp Hn Hk.
  unfold Skip, skip_by_spec, bind, get, put, ret.
  split; intros Hs.
  - rewrite swrap64_small by lia.
    destruct (NumRec (header d) <=? recpointer d + k); [reflexivity|].
    destruct (recpointer d + k <? 0); reflexivity.
  - rewrite swrap64_high by lia.
    destruct (Z.leb_spec (NumRec (header d)) (recpointer d + k - 2 ^ 64)); [lia|].
    destruct (Z.ltb_spec (recpointer d + k - 2 ^ 64) 0); [|lia].
    destruct (Z.leb_spec (NumRec (header d)) (recpointer d + k)); [|lia].
    split; reflexivity.
Qed.

Lemma Skip_int64_overflow_witness :
  Skip (2 ^ 63 - 1) (set_recpointer Fixture.table 1) =
    Some (Some ErrBOF, set_recpointer (set_recpointer Fixture.table 1) 0) /\
  Skip 5 (set_recpointer Fixture.table 1) =
    Some (Some ErrEOF, set_recpointer (set_recpointer Fixture.table 1) 2).
Proof.
  assert (E : NumRec (header Fixture.table) = 2) by (vm_compute; reflexivity).
  assert (H : 0 <= recpointer (set_recpointer Fixture.table 1)
                <= NumRec (header (set_recpointer Fixture.table 1)) /\
              NumRec (header (set_recpointer Fixture.table 1)) < 2 ^ 32)
    by (cbn [set_recpointer recpointer header]; rewrite E; lia).
  destruct H as [H1 H2].
  split.
  - apply (proj2 (Skip_int64_overflow _ (2 ^ 63 - 1) H1 H2 ltac:(lia))).
    cbn [set_recpointer recpointer]. lia.
  - rewrite (proj1 (Skip_int64_overflow _ 5 H1 H2 ltac:(lia))
               ltac:(cbn [set_recpointer recpointer]; lia)).
    vm_compute. reflexivity.
Defined.

(** C9: from position p, if Skip(k) succeeds and then Skip(-k) (Go's
    wrapping int64 negation) succeeds, the position is p again. *)
Theorem Skip_inverse : forall d k,
  0 <= recpointer d < 2 ^ 32 -> -2 ^ 63 <= k < 2 ^ 63 ->
  match Skip k d with
  | Some (None, d1) =>
    match Skip (swrap 64 (- k)) d1 with
    | Some (None, d2) => recpointer d2 = recpointer d
    | _ => True
    end
  | _ => True
  end.
Proof.
  intros d k Hp Hk.
  unfold Skip at 1, bind, get, put, ret.
  set (p := recpointer d) in *.
  destruct (Z.leb_spec (NumRec (header d)) (swrap 64 (p + k))) as [H1 | H1]; [exact I|].
  destruct (Z.ltb_spec (swrap 64 (p + k)) 0) as [H2 | H2]; [exact I|].
  assert (Hs : swrap 64 (p + k) = p + k).
  { destruct (Z.ltb_spec (p + k) (2 ^ 63)) as [H3 | H3].
    - apply swrap64_small; lia.
    - rewrite swrap64_high in H2; [lia|].
      split; [lia|]. replace (2 ^ 64) with (2 ^ 63 * 2) by reflexivity.
      assert (2 ^ 32 <= 2 ^ 63) by (apply Z.pow_le_mono_r; lia). lia. }
  rewrite Hs in *.
  rewrite (swrap64_small (- k)) by lia.
  unfold Skip, bind, get, put, ret. simpl.
  replace (p + k + - k) with p by lia.
  rewrite swrap64_small by lia.
  destruct (Z.leb_spec (NumRec (header d)) p) as [H4 | H4]; [exact I|].
  destruct (Z.ltb_spec p 0) as [H5 | H5]; [exact I|].
  reflexivity.
Qed.

Lemma Skip_inverse_witness :
  (0 <= recpointer Fixture.table < 2 ^ 32 /\ -2 ^ 63 <= 1 < 2 ^ 63) /\
  Skip 1 Fixture.table = Some (None, set_recpointer Fixture.table 1) /\
  Skip (swrap 64 (- 1)) (set_recpointer Fixture.table 1)
    = Some (None, set_recpointer (set_recpointer Fixture.table 1) 0) /\
  match Skip 1 Fixture.table with
  | Some (None, d1) =>
    match Skip (swrap 64 (- 1)) d1 with
    | Some (None, d2) => recpointer d2 = recpointer Fixture.table
    | _ => True
    end
  | _ => True
  end.
Proof.
  assert (H : 0 <= recpointer Fixture.table < 2 ^ 32 /\ -2 ^ 63 <= 1 < 2 ^ 63).
  { assert (E : recpointer Fixture.table = 0) by (vm_compute; reflexivity).
    rewrite E. lia. }
  split; [exact H|].
  split; [vm_compute; reflexivity|].
  split; [vm_compute; reflexivity|].
  destruct H as [H1 H2].
  exact (Skip_inverse Fixture.table 1 H1 H2).
Defined.

(** ** C10: RecordToMap moves the cursor *)

(** Case analysis on the matches of an evaluated method. *)
Ltac go_step :=
  match goal with
  | H : Some _ = Some _ |- _ => injection H; clear H; intros; subst
  | H : None = Some _ |- _ => discriminate H
  | H : context [match ?x with _ => _ end] |- _ => destruct x eqn:?
  end.

Ltac go_cases := repeat go_step; simpl; try reflexivity.

Section Cursor.

Variable lib : GoLib.

(** The methods other than GoTo and Skip leave [recpointer] alone. *)
Definition keeps_cursor {A} (m : M A) : Prop :=
  forall d a d', m d = Some (a, d') -> recpointer d' = recpointer d.

Lemma readFPT_keeps_cursor : forall bd, keeps_cursor (readFPT bd).
Proof.
  intros bd d a d' H.
  unfold readFPT, bind, get, put, ret, lift in H. go_cases.
Qed.

Lemma fieldDataToValue_keeps_cursor : forall raw i, keeps_cursor (fieldDataToValue lib raw i).
Proof.
  intros raw i d a d' H.
  unfold fieldDataToValue, parseMemo, toUTF8String, bind, get, ret, lift in H.
  repeat go_step; simpl; try reflexivity;
    match goal with
    | E : readFPT _ _ = Some (_, _) |- _ => apply readFPT_keeps_cursor in E; exact E
    end.
Qed.

Lemma readField_keeps_cursor : forall n p, keeps_cursor (readField n p).
Proof.
  intros n p d a d' H.
  unfold readField, bind, get, put, ret, lift in H. go_cases.
Qed.

Lemma readRecord_keeps_cursor : forall n, keeps_cursor (readRecord n).
Proof.
  intros n d a d' H.
  unfold readRecord, bind, get, put, ret, lift in H. go_cases.
Qed.

Lemma Field_keeps_cursor : forall i, keeps_cursor (Field lib i).
Proof.
  intros i d a d' H.
  unfold Field, bind, get, ret in H.
  destruct (readField (recpointer d) i d) as [[res d1] |] eqn:E1; [|discriminate].
  apply readField_keeps_cursor in E1.
  destruct (snd res).
  - injection H; intros; subst; exact E1.
  - apply fieldDataToValue_keeps_cursor in H. congruence.
Qed.

Lemma mapFields_keeps_cursor : forall names i out, keeps_cursor (mapFields lib names i out).
Proof.
  induction names as [| fn rest IH]; intros i out d a d' H; simpl in H.
  - unfold ret in H. injection H; intros; subst; reflexivity.
  - unfold bind in H.
    destruct (Field lib i d) as [[[v e] d1] |] eqn:E; [|discriminate].
    apply Field_keeps_cursor in E.
    destruct e.
    + unfold ret in H. injection H; intros; subst; exact E.
    + apply IH in H. congruence.
Qed.

Lemma decodeFields_keeps_cursor : forall data del n i off acc,
  keeps_cursor (decodeFields lib data del n i off acc).
Proof.
  induction n as [| n IH]; intros i off acc d a d' H; simpl in H.
  - unfold ret in H. injection H; intros; subst; reflexivity.
  - unfold bind, get, lift in H.
    destruct (nth_error (fields d) i) as [f |]; [|discriminate].
    destruct (slice data off (uwrap 16 (off + Len f))) as [raw |]; [|discriminate].
    destruct (fieldDataToValue lib raw (Z.of_nat i) d) as [[[v e] d1] |] eqn:E; [|discriminate].
    apply fieldDataToValue_keeps_cursor in E.
    destruct e.
    + unfold ret in H. injection H; intros; subst; exact E.
    + apply IH in H. congruence.
Qed.

Lemma bytesToRecord_keeps_cursor : forall data, keeps_cursor (bytesToRecord lib data).
Proof.
  intros data d a d' H.
  unfold bytesToRecord, bind, get, ret, lift in H.
  destruct (index data 0) as [d0 |]; [|discriminate].
  destruct (negb (d0 =? 42) && negb (d0 =? 32)).
  - injection H; intros; subst; reflexivity.
  - apply decodeFields_keeps_cursor in H. exact H.
Qed.

Lemma RecordAt_keeps_cursor : forall n, keeps_cursor (RecordAt lib n).
Proof.
  intros n d a d' H.
  unfold RecordAt, bind, ret in H.
  destruct (readRecord n d) as [[res d1] |] eqn:E; [|discriminate].
  apply readRecord_keeps_cursor in E.
  destruct (snd res).
  - injection H; intros; subst; exact E.
  - apply bytesToRecord_keeps_cursor in H. congruence.
Qed.

End Cursor.

(** C10: a successful RecordToMap(nrec) with [nrec > 0] different from
    the cursor leaves the cursor at [nrec] (it goes through GoTo), while
    RecordAt never moves the cursor; RecordToMap(0) does exactly what
    RecordToMap(cursor) does and leaves the cursor in place, so record 0
    cannot be addressed by number when the cursor is elsewhere. *)
Theorem RecordToMap_moves_cursor : forall lib d nrec,
  0 < nrec -> nrec <> recpointer d ->
  match RecordToMap lib nrec d with
  | Some ((_, None), d') => recpointer d' = nrec
  | _ => True
  end /\
  match RecordAt lib nrec d with
  | Some (_, d') => recpointer d' = recpointer d
  | None => True
  end /\
  RecordToMap lib 0 d = RecordToMap lib (recpointer d) d /\
  match RecordToMap lib 0 d with
  | Some (_, d') => recpointer d' = recpointer d
  | None => True
  end.
Proof.
  intros lib d nrec Hpos Hne.
  split; [|split; [|split]].
  - unfold RecordToMap, bind, get, ret.
    replace (nrec <=? 0) with false by (symmetry; apply Z.leb_gt; lia).
    replace (nrec =? recpointer d) with false by (symmetry; apply Z.eqb_neq; exact Hne).
    unfold GoTo, bind, get, put, ret. simpl.
    destruct (NumRec (header d) <=? nrec); [exact I|].
    destruct (mapFields lib (FieldNames (set_recpointer d nrec)) 0 [] (set_recpointer d nrec))
      as [[[mo [e |]] d'] |] eqn:E; try exact I.
    apply mapFields_keeps_cursor in E. exact E.
  - destruct (RecordAt lib nrec d) as [[res d'] |] eqn:E; [|exact I].
    apply RecordAt_keeps_cursor in E. exact E.
  - unfold RecordToMap, bind, get, ret. simpl.
    destruct (recpointer d <=? 0); [reflexivity|].
    rewrite Z.eqb_refl. reflexivity.
  - unfold RecordToMap, bind, get, ret. simpl.
    destruct (mapFields lib (FieldNames d) 0 [] d) as [[res d'] |] eqn:E; [|exact I].
    apply mapFields_keeps_cursor in E. exact E.
Qed.

Lemma RecordToMap_moves_cursor_witness :
  (0 < 1 /\ 1 <> recpointer Fixture.table) /\
  option_map (fun p => (snd (fst p), recpointer (snd p)))
    (RecordToMap Fixture.stdlib_stub 1 Fixture.table) = Some (None, 1) /\
  (match RecordToMap Fixture.stdlib_stub 1 Fixture.table with
   | Some ((_, None), d') => recpointer d' = 1
   | _ => True
   end /\
   match RecordAt Fixture.stdlib_stub 1 Fixture.table with
   | Some (_, d') => recpointer d' = recpointer Fixture.table
   | None => True
   end /\
   RecordToMap Fixture.stdlib_stub 0 Fixture.table
     = RecordToMap Fixture.stdlib_stub (recpointer Fixture.table) Fixture.table /\
   match RecordToMap Fixture.stdlib_stub 0 Fixture.table with
   | Some (_, d') => recpointer d' = recpointer Fixture.table
   | None => True
   end).
Proof.
  assert (H : 0 < 1 /\ 1 <> recpointer Fixture.table).
  { assert (E : recpointer Fixture.table = 0) by (vm_compute; reflexivity).
    rewrite E. lia. }
  split; [exact H|].
  split; [vm_compute; reflexivity|].
  destruct H as [H1 H2].
  exact (RecordToMap_moves_cursor Fixture.stdlib_stub Fixture.table 1 H1 H2).
Defined.

(** ** C2: a field decode error during bytesToRecord *)

Lemma set_nth_length : forall {A} (l : list A) i x, length (set_nth l i x) = length l.
Proof.
  induction l as [| y l IH]; intros [| i] x; simpl; try reflexivity.
  rewrite IH. reflexivity.
Qed.

Lemma skipn_set_nth : forall {A} (l : list A) i x, skipn (S i) (set_nth l i x) = skipn (S i) l.
Proof.
  induction l as [| y l IH]; intros [| i] x; simpl; try reflexivity.
  apply IH.
Qed.

Lemma skipn_S_repeat : forall {A} (l : list A) (v : A) i n,
  skipn i l = repeat v (S n) -> skipn (S i) l = repeat v n.
Proof.
  intros A l v i n H.
  replace (S i) with (1 + i)%nat by lia.
  rewrite <- skipn_skipn, H. reflexivity.
Qed.

(** [decoded lib data i off d vs off' d']: the loop of bytesToRecord
    decodes fields [i], [i + 1], ... without error into the values [vs],
    one iteration per value: field [i] is read from the bytes
    [data[off:off+Len]] (uint16 bounds) by fieldDataToValue in state [d];
    the iterations end at byte [off'] in state [d']. *)
Inductive decoded (lib : GoLib) (data : list Z)
    : nat -> Z -> DBF -> list Value -> Z -> DBF -> Prop :=
| decoded_nil : forall i off d, decoded lib data i off d [] off d
| decoded_cons : forall i off d f raw v d1 vs off' d',
    nth_error (fields d) i = Some f ->
    slice data off (uwrap 16 (off + Len f)) = Some raw ->
    fieldDataToValue lib raw (Z.of_nat i) d = Some ((v, None), d1) ->
    decoded lib data (S i) (uwrap 16 (off + Len f)) d1 vs off' d' ->
    decoded lib data i off d (v :: vs) off' d'.

Lemma firstn_set_nth : forall {A} (l : list A) i x, (i < length l)%nat ->
  firstn (S i) (set_nth l i x) = firstn i l ++ [x].
Proof.
  induction l as [| y l IH]; intros [| i] x H; cbn in H |- *; try lia; [reflexivity|].
  f_equal. apply IH. lia.
Qed.

(** The loop of bytesToRecord returns [rec.data] holding the values of
    the fields it decoded, then nils; on an error it stopped at the next
    field, whose decoding returned that error. *)
Lemma decodeFields_decoded : forall lib data del n i off acc d ro err d'',
  length acc = (i + n)%nat -> skipn i acc = repeat VNil n ->
  decodeFields lib data del n i off acc d = Some ((ro, err), d'') ->
  exists rec vs off' dk, ro = Some rec /\ Deleted rec = del /\
    decoded lib data i off d vs off' dk /\ (length vs <= n)%nat /\
    rdata rec = firstn i acc ++ vs ++ repeat VNil (n - length vs) /\
    match err with
    | None => length vs = n /\ d'' = dk
    | Some e => (length vs < n)%nat /\
        exists f raw v, nth_error (fields dk) (i + length vs) = Some f /\
          slice data off' (uwrap 16 (off' + Len f)) = Some raw /\
          fieldDataToValue lib raw (Z.of_nat (i + length vs)) dk = Some ((v, Some e), d'')
    end.
Proof.
  intros lib data del n. induction n as [| n IH];
    intros i off acc d ro err d'' Hlen Hnil Hd; cbn [decodeFields] in Hd.
  - unfold ret in Hd. injection Hd as <- <- <-.
    exists (mkRecord del acc), [], off, d. cbn [rdata Deleted length].
    split; [reflexivity|]. split; [reflexivity|]. split; [constructor|].
    split; [lia|]. split; [|split; reflexivity].
    cbn. rewrite app_nil_r, firstn_all2 by lia. reflexivity.
  - unfold bind, get, lift in Hd.
    destruct (nth_error (fields d) i) as [f |] eqn:Ef; [|discriminate].
    destruct (slice data off (uwrap 16 (off + Len f))) as [raw |] eqn:Es; [|discriminate].
    destruct (fieldDataToValue lib raw (Z.of_nat i) d) as [[[v [e |]] d1] |] eqn:Ev;
      [| | discriminate].
    + unfold ret in Hd. injection Hd as <- <- <-.
      exists (mkRecord del acc), [], off, d. cbn [rdata Deleted length].
      split; [reflexivity|]. split; [reflexivity|]. split; [constructor|].
      split; [lia|]. split.
      * cbn [app]. rewrite Nat.sub_0_r, <- Hnil, firstn_skipn. reflexivity.
      * split; [lia|]. exists f, raw, v. rewrite Nat.add_0_r. auto.
    + destruct (IH (S i) (uwrap 16 (off + Len f)) (set_nth acc i v) d1 ro err d'')
        as (rec & vs & off' & dk & Hro & Hdel & Hdec & Hle & Hdata & Herr).
      * rewrite set_nth_length. lia.
      * rewrite skipn_set_nth. apply (skipn_S_repeat _ VNil). exact Hnil.
      * exact Hd.
      * exists rec, (v :: vs), off', dk.
        split; [exact Hro|]. split; [exact Hdel|].
        split; [econstructor; eauto|]. split; [cbn; lia|]. split.
        -- rewrite Hdata, firstn_set_nth by lia. rewrite <- app_assoc. reflexivity.
        -- destruct err as [e |].
           ++ destruct Herr as [Hlt Hf]. split; [cbn; lia|].
              cbn [length]. rewrite Nat.add_succ_r. exact Hf.
           ++ destruct Herr as [Hl Hk]. split; [cbn; lia | exact Hk].
Qed.

(** C2 as stated fails: RecordAt(0) on a table whose second field has the
    unknown type "X" returns the error together with a non-nil Record
    holding the first field's value. *)
Lemma RecordAt_C2_counterexample :
  option_map fst (RecordAt Fixture.stdlib_stub 0 Fixture.table_x) =
    Some (Some (mkRecord false [VBool true; VNil]), Some (ErrUnsupportedFieldtype 88)).
Proof. vm_compute. reflexivity. Qed.

(** C2 (amended): with a valid deletion flag (0x20 or 0x2A),
    bytesToRecord always returns a non-nil Record of NumFields entries:
    the values [vs] of the fields decoded without error, in order,
    followed by nils.  Without error every field was decoded; on an error
    the decoding stopped at field [length vs], the first that failed,
    whose fieldDataToValue returned that error.  Only an invalid deletion
    flag gives an error with no Record. *)
Theorem bytesToRecord_partial_row : forall lib d b rest,
  match bytesToRecord lib (b :: rest) d with
  | Some ((ro, err), d') =>
    if (b =? 32) || (b =? 42) then
      exists rec vs off dk, ro = Some rec /\ Deleted rec = (b =? 42) /\
        decoded lib (b :: rest) 0 1 d vs off dk /\
        rdata rec = vs ++ repeat VNil (Z.to_nat (NumFields d) - length vs) /\
        match err with
        | None => length vs = Z.to_nat (NumFields d) /\ d' = dk
        | Some e => (length vs < Z.to_nat (NumFields d))%nat /\
            exists f raw v, nth_error (fields dk) (length vs) = Some f /\
              slice (b :: rest) off (uwrap 16 (off + Len f)) = Some raw /\
              fieldDataToValue lib raw (Z.of_nat (length vs)) dk = Some ((v, Some e), d')
        end
    else ro = None /\ err = Some ErrNoDeleteFlag /\ d' = d
  | None => True
  end.
Proof.
  intros lib d b rest.
  unfold bytesToRecord, bind, lift, get, ret. simpl.
  assert (HP : forall del, match decodeFields lib (b :: rest) del (Z.to_nat (NumFields d)) 0 1
                             (repeat VNil (Z.to_nat (NumFields d))) d with
    | Some ((ro, err), d') =>
      exists rec vs off dk, ro = Some rec /\ Deleted rec = del /\
        decoded lib (b :: rest) 0 1 d vs off dk /\
        rdata rec = vs ++ repeat VNil (Z.to_nat (NumFields d) - length vs) /\
        match err with
        | None => length vs = Z.to_nat (NumFields d) /\ d' = dk
        | Some e => (length vs < Z.to_nat (NumFields d))%nat /\
            exists f raw v, nth_error (fields dk) (length vs) = Some f /\
              slice (b :: rest) off (uwrap 16 (off + Len f)) = Some raw /\
              fieldDataToValue lib raw (Z.of_nat (length vs)) dk = Some ((v, Some e), d')
        end
    | None => True
    end).
  { intros del.
    destruct (decodeFields lib (b :: rest) del (Z.to_nat (NumFields d)) 0 1
                (repeat VNil (Z.to_nat (NumFields d))) d) as [[[ro err] d'] |] eqn:E;
      [|exact I].
    apply decodeFields_decoded in E; [| rewrite repeat_length; reflexivity | reflexivity].
    destruct E as (rec & vs & off & dk & Hro & Hdel & Hdec & _ & Hdata & Herr).
    exists rec, vs, off, dk. split; [exact Hro|]. split; [exact Hdel|].
    split; [exact Hdec|]. split; [exact Hdata | exact Herr]. }
  destruct (b =? 42) eqn:E42; destruct (b =? 32) eqn:E32; simpl;
    try (repeat split; reflexivity); apply HP.
Qed.

(** ** C3: short reads in readFPT *)

(** C3 fails on the header: the 8-byte header read ignores its count.
    When block 1 of the memo file holds only 4 bytes, readFPT zero-fills
    the missing length word and returns an empty text payload with no
    error; the memo field decodes to "" instead of failing.  A short
    payload, by contrast, does give ErrIncomplete. *)
Theorem readFPT_truncated_header :
  option_map fst (readFPT [1; 0; 0; 0] (Fixture.memo_table Fixture.fpt_truncated))
    = Some ([], true, None) /\
  option_map fst (fieldDataToValue Fixture.stdlib_stub [1; 0; 0; 0] 0
                    (Fixture.memo_table Fixture.fpt_truncated))
    = Some (VString [], None) /\
  option_map fst (readFPT [1; 0; 0; 0] (Fixture.memo_table Fixture.fpt_short_payload))
    = Some ([65; 66; 67; 0; 0; 0; 0; 0; 0; 0], true, Some ErrIncomplete).
Proof. vm_compute. repeat split; reflexivity. Qed.

(** ** C4: currency values *)

(** A float64 below zero (negative zero is not a negative amount). *)
Definition is_negative (x : float64) : bool :=
  match x with
  | S754_finite true _ _ | S754_infinity true => true
  | _ => false
  end.

Definition sign_clear (x : float64) : Prop :=
  match x with
  | S754_zero s | S754_infinity s | S754_finite s _ _ => s = false
  | S754_nan => True
  end.

Lemma binary_round_aux_clear : forall mx ex lx,
  sign_clear (binary_round_aux 53 1024 false mx ex lx).
Proof.
  intros mx ex lx. unfold binary_round_aux.
  destruct (shr_fexp 53 1024 mx ex lx) as [m1 e1].
  destruct (shr_fexp 53 1024 (round_nearest_even (shr_m m1) (loc_of_shr_record m1)) e1 loc_Exact)
    as [m2 e2].
  destruct (shr_m m2); simpl; try reflexivity; try exact I.
  destruct (_ <=? _); reflexivity.
Qed.

Lemma float64_of_Z_clear : forall u, 0 <= u -> sign_clear (float64_of_Z u).
Proof.
  intros [| m | m] Hu; unfold float64_of_Z, binary_normalize; simpl.
  - reflexivity.
  - unfold binary_round. destruct (shl_align m 0 _) as [mz ez].
    apply binary_round_aux_clear.
  - lia.
Qed.

Lemma currency_div_clear : forall u, 0 <= u ->
  sign_clear (div64 (float64_of_Z u) (float64_of_Z 10000)).
Proof.
  intros u Hu. pose proof (float64_of_Z_clear u Hu) as Hc.
  unfold div64.
  replace (float64_of_Z 10000) with (S754_finite false 5497558138880000 (-39))
    by (vm_compute; reflexivity).
  destruct (float64_of_Z u) as [s | s | | s m e]; simpl in *; subst; simpl; try exact I;
    try reflexivity.
  destruct (SFdiv_core_binary 53 1024 (Z.pos m) e 5497558138880000 (-39)) as [[mz ez] lz].
  apply binary_round_aux_clear.
Qed.

Lemma le_bytes_nonneg : forall bs, Forall (fun b => 0 <= b < 256) bs -> 0 <= le_bytes bs.
Proof.
  induction bs as [| b bs IH]; intros H; cbn [le_bytes]; [lia|].
  apply Forall_cons_iff in H. destruct H as [Hb Hbs].
  specialize (IH Hbs). lia.
Qed.

(** C4: the currency branch reads the bytes with [Uint64] (unsigned), so a
    Y field never decodes to a negative amount, whatever its bit 63. *)
Theorem currency_never_negative : forall lib d raw i f,
  index (fields d) i = Some f -> Type_ f = 89 -> Forall (fun b => 0 <= b < 256) raw ->
  match fieldDataToValue lib raw i d with
  | Some ((VFloat64 x, _), _) => is_negative x = false
  | _ => True
  end.
Proof.
  intros lib d raw i f Hidx Hty Hraw.
  unfold fieldDataToValue, bind, get, lift, ret.
  destruct ((i <? 0) || (Z.of_nat (length (fields d)) <? i)); [exact I|].
  rewrite Hidx, Hty. cbn -[div64 float64_of_Z LEUint64].
  destruct (LEUint64 raw) as [u |] eqn:E; [|exact I].
  assert (Hu : 0 <= u).
  { unfold LEUint64 in E. destruct (Z.of_nat (length raw) <? 8); [discriminate|].
    injection E as <-. apply le_bytes_nonneg.
    apply Forall_forall. intros x Hx. apply (proj1 (Forall_forall _ raw) Hraw).
    rewrite <- (firstn_skipn 8 raw). apply in_or_app. left. exact Hx. }
  pose proof (currency_div_clear u Hu) as Hc.
  destruct (div64 (float64_of_Z u) (float64_of_Z 10000)) as [s | s | | s m e];
    simpl in *; subst; reflexivity.
Qed.

(** At the failing input: the eight bytes 0xFF (int64 -1, that is
    -0.0001) decode to +1844674407370955.25. *)
Lemma currency_never_negative_witness :
  (index (fields Fixture.table_y) 1 = Some (mkFieldHeader [73; 68; 0; 0; 0; 0; 0; 0; 0; 0; 0]
     89 2 4 0 0 0 0 [0; 0; 0; 0; 0; 0; 0; 13]) /\
   Type_ (mkFieldHeader [73; 68; 0; 0; 0; 0; 0; 0; 0; 0; 0] 89 2 4 0 0 0 0
            [0; 0; 0; 0; 0; 0; 0; 13]) = 89 /\
   Forall (fun b => 0 <= b < 256) (repeat 255 8)) /\
  option_map fst (fieldDataToValue Fixture.stdlib_stub (repeat 255 8) 1 Fixture.table_y)
    = Some (VFloat64 (S754_finite false 7378697629483821 (-2)), None) /\
  match fieldDataToValue Fixture.stdlib_stub (repeat 255 8) 1 Fixture.table_y with
  | Some ((VFloat64 x, _), _) => is_negative x = false
  | _ => True
  end.
Proof.
  assert (H1 : index (fields Fixture.table_y) 1 = Some (mkFieldHeader
     [73; 68; 0; 0; 0; 0; 0; 0; 0; 0; 0] 89 2 4 0 0 0 0 [0; 0; 0; 0; 0; 0; 0; 13]))
    by (vm_compute; reflexivity).
  assert (H2 : Type_ (mkFieldHeader [73; 68; 0; 0; 0; 0; 0; 0; 0; 0; 0] 89 2 4 0 0 0 0
            [0; 0; 0; 0; 0; 0; 0; 13]) = 89) by reflexivity.
  assert (H3 : Forall (fun b => 0 <= b < 256) (repeat 255 8))
    by (repeat constructor; lia).
  split; [split; [exact H1 | split; [exact H2 | exact H3]]|].
  split; [vm_compute; reflexivity|].
  exact (currency_never_negative Fixture.stdlib_stub Fixture.table_y (repeat 255 8) 1 _ H1 H2 H3).
Defined.

(** ** C6: datetime values *)

Lemma index_some_range : forall {A} (l : list A) i x,
  index l i = Some x -> 0 <= i < Z.of_nat (length l).
Proof.
  intros A l i x H. unfold index in H.
  destruct (Z.ltb_spec i 0); [discriminate|].
  assert (Hn : (Z.to_nat i < length l)%nat) by (apply nth_error_Some; congruence).
  lia.
Qed.

Lemma fieldpos_guard : forall d i f,
  index (fields d) i = Some f ->
  (i <? 0) || (Z.of_nat (length (fields d)) <? i) = false.
Proof.
  intros d i f H. apply index_some_range in H.
  apply orb_false_iff. split; apply Z.ltb_ge; lia.
Qed.

(** C6 as stated fails on its "only place" part: the T decoder never
    checks the milliseconds word either.  Julian day 2453738 (2006-01-02)
    with 4294967295 ms (about 49.7 days) is accepted without error and
    handed to time.Date, which carries it into later days. *)
Lemma datetime_C6_counterexample :
  option_map fst (fieldDataToValue Fixture.stdlib_stub
                    (Fixture.le32 2453738 ++ Fixture.le32 4294967295) 1 Fixture.table_t)
    = Some (VTime (TimeDateUTC 2006 1 2 0 0 0 4294967295000000), None) /\
  24 * 60 * 60 * 1000 <= le_bytes (Fixture.le32 4294967295).
Proof. split; vm_compute; [reflexivity | discriminate]. Qed.

(** C6 (amended): an 8-byte T value never fails to decode.  When the
    Julian day (first little-endian word) converts to a year outside
    [0, 9999] the value is the zero time; otherwise it is
    time.Date(y, m, d, 0, 0, 0, ms * 10^6, UTC) with the second word as
    milliseconds, whatever its size. *)
Theorem datetime_decoding : forall lib d raw i f,
  index (fields d) i = Some f -> Type_ f = 84 -> length raw = 8%nat ->
  fieldDataToValue lib raw i d =
    Some ((VTime (let '(y, m, dd) := J2YMD (le_bytes (firstn 4 raw)) in
                  if (y <? 0) || (9999 <? y) then TimeZero
                  else TimeDateUTC y m dd 0 0 0 (le_bytes (skipn 4 raw) * 1000000)), None), d).
Proof.
  intros lib d raw i f Hidx Hty Hlen.
  unfold fieldDataToValue, bind, get, lift, ret.
  rewrite (fieldpos_guard d i f Hidx), Hidx, Hty.
  do 8 (destruct raw as [| ? raw]; [discriminate|]).
  destruct raw; [|discriminate].
  cbn -[J2YMD le_bytes].
  destruct (J2YMD _) as [[y m] dd].
  destruct ((y <? 0) || (9999 <? y)); reflexivity.
Qed.

Lemma datetime_decoding_witness :
  (index (fields Fixture.table_t) 1 = Some (mkFieldHeader [73; 68; 0; 0; 0; 0; 0; 0; 0; 0; 0]
     84 2 4 0 0 0 0 [0; 0; 0; 0; 0; 0; 0; 13]) /\
   Type_ (mkFieldHeader [73; 68; 0; 0; 0; 0; 0; 0; 0; 0; 0] 84 2 4 0 0 0 0
            [0; 0; 0; 0; 0; 0; 0; 13]) = 84 /\
   length (Fixture.le32 0 ++ Fixture.le32 1000) = 8%nat) /\
  fieldDataToValue Fixture.stdlib_stub (Fixture.le32 0 ++ Fixture.le32 1000) 1 Fixture.table_t
    = Some ((VTime TimeZero, None), Fixture.table_t).
Proof.
  assert (H1 : index (fields Fixture.table_t) 1 = Some (mkFieldHeader
     [73; 68; 0; 0; 0; 0; 0; 0; 0; 0; 0] 84 2 4 0 0 0 0 [0; 0; 0; 0; 0; 0; 0; 13]))
    by (vm_compute; reflexivity).
  assert (H2 : Type_ (mkFieldHeader [73; 68; 0; 0; 0; 0; 0; 0; 0; 0; 0] 84 2 4 0 0 0 0
            [0; 0; 0; 0; 0; 0; 0; 13]) = 84) by reflexivity.
  assert (H3 : length (Fixture.le32 0 ++ Fixture.le32 1000) = 8%nat) by reflexivity.
  split; [split; [exact H1 | split; [exact H2 | exact H3]]|].
  rewrite (datetime_decoding Fixture.stdlib_stub Fixture.table_t _ 1 _ H1 H2 H3).
  vm_compute. reflexivity.
Defined.

(** ** C7: zero-length memo blocks *)

Lemma Seek_start : forall rd a, 0 <= a -> Seek rd a 0 = (a, None, mkReader (rs rd) a).
Proof.
  intros rd a Ha. unfold Seek. cbn [Z.eqb].
  destruct (Z.ltb_spec a 0); [lia | reflexivity].
Qed.

Lemma Read_prefix : forall rd n b, 0 <= ri rd -> 0 < n ->
  firstn (Z.to_nat n) (skipn (Z.to_nat (ri rd)) (rs rd)) = b -> length b = Z.to_nat n ->
  Read rd n = (b, n, None, mkReader (rs rd) (ri rd + n)).
Proof.
  intros rd n b Hi Hn Hb Hl. unfold Read.
  assert (Hlen : (Z.to_nat (ri rd) < length (rs rd))%nat).
  { destruct (Nat.lt_ge_cases (Z.to_nat (ri rd)) (length (rs rd))) as [H|H]; [exact H|].
    rewrite skipn_all2 in Hb by exact H. rewrite firstn_nil in Hb. subst b.
    cbn in Hl. lia. }
  destruct (Z.leb_spec (Z.of_nat (length (rs rd))) (ri rd)); [lia|].
  unfold fill. rewrite Hb, Hl, Nat.sub_diag. cbn [repeat].
  rewrite app_nil_r, Z2Nat.id by lia. reflexivity.
Qed.

Lemma readFPT_zero_run : forall d src h bd blk pre,
  fptr d = Some src -> fptheader d = Some h -> LEUint32 bd = Some blk ->
  0 <= BlockSize h * blk ->
  firstn 8 (skipn (Z.to_nat (BlockSize h * blk)) (rs src)) = pre ++ [0; 0; 0; 0] ->
  length pre = 4%nat ->
  readFPT bd d = Some (([], be_bytes pre =? 1, None),
    set_fptr (set_fptr d (mkReader (rs src) (BlockSize h * blk))
                         (EvSeek SrcFPT (BlockSize h * blk) 0))
             (mkReader (rs src) (BlockSize h * blk + 8)) (EvRead SrcFPT 8)).
Proof.
  intros d src h bd blk pre Hf Hh Hb Hoff Hpre Hl.
  unfold readFPT, bind, get, lift, put, ret.
  rewrite Hf. cbn beta iota. rewrite Hb. cbn beta iota. rewrite Hh. cbn beta iota.
  rewrite (Seek_start src _ Hoff). cbn beta iota.
  rewrite (Read_prefix (mkReader (rs src) (BlockSize h * blk)) 8 (pre ++ [0; 0; 0; 0]));
    cbn [ri rs]; [| lia | lia | exact Hpre | rewrite length_app, Hl; reflexivity].
  do 4 (destruct pre as [| ? pre]; [discriminate|]). destruct pre; [|discriminate].
  reflexivity.
Qed.

(** C7: when the memo block reached by [blockdata] has a complete 8-byte
    header whose length word is 0, readFPT returns an empty payload, the
    text flag [sign == 1] and no error.  A memo field pointing at such a
    block then decodes to an empty string (text signature) or empty byte
    slice, without error, given a decoder that maps the empty input to
    itself, as every decoder of the package does. *)
Theorem readFPT_zero_length : forall d src h bd blk pre,
  fptr d = Some src -> fptheader d = Some h -> LEUint32 bd = Some blk ->
  0 <= BlockSize h * blk ->
  firstn 8 (skipn (Z.to_nat (BlockSize h * blk)) (rs src)) = pre ++ [0; 0; 0; 0] ->
  length pre = 4%nat ->
  option_map fst (readFPT bd d) = Some ([], be_bytes pre =? 1, None) /\
  (forall lib i f, index (fields d) i = Some f -> Type_ f = 77 -> dec d [] = ([], None) ->
     option_map fst (fieldDataToValue lib bd i d)
       = Some (if be_bytes pre =? 1 then VString [] else VBytes [], None)).
Proof.
  intros d src h bd blk pre Hf Hh Hb Hoff Hpre Hl.
  pose proof (readFPT_zero_run d src h bd blk pre Hf Hh Hb Hoff Hpre Hl) as Hrun.
  split; [rewrite Hrun; reflexivity|].
  intros lib i f Hidx Hty Hdec.
  unfold fieldDataToValue, bind, get, lift, ret.
  rewrite (fieldpos_guard d i f Hidx), Hidx, Hty. cbn beta iota.
  unfold parseMemo, bind, get, ret. rewrite Z.eqb_refl. cbn beta iota. rewrite Hrun. cbn beta iota.
  destruct (be_bytes pre =? 1); cbn [dec set_fptr].
  - rewrite Hdec. reflexivity.
  - reflexivity.
Qed.

Lemma readFPT_zero_length_witness :
  option_map fst (readFPT [1; 0; 0; 0] (Fixture.memo_table Fixture.fpt_empty))
    = Some ([], true, None) /\
  option_map fst (fieldDataToValue Fixture.stdlib_stub [1; 0; 0; 0] 0
                    (Fixture.memo_table Fixture.fpt_empty)) = Some (VString [], None).
Proof.
  assert (Hf : fptr (Fixture.memo_table Fixture.fpt_empty)
               = Some (mkReader Fixture.fpt_empty 8)) by reflexivity.
  assert (Hh : fptheader (Fixture.memo_table Fixture.fpt_empty)
               = Some (decodeFPTHeader Fixture.fpt_empty)) by reflexivity.
  assert (Hb : LEUint32 [1; 0; 0; 0] = Some 1) by reflexivity.
  assert (Hoff : 0 <= BlockSize (decodeFPTHeader Fixture.fpt_empty) * 1)
    by (vm_compute; discriminate).
  assert (Hpre : firstn 8 (skipn (Z.to_nat (BlockSize (decodeFPTHeader Fixture.fpt_empty) * 1))
                   (rs (mkReader Fixture.fpt_empty 8))) = [0; 0; 0; 1] ++ [0; 0; 0; 0])
    by (vm_compute; reflexivity).
  assert (Hl : length [0; 0; 0; 1] = 4%nat) by reflexivity.
  destruct (readFPT_zero_length _ _ _ _ _ _ Hf Hh Hb Hoff Hpre Hl) as [H1 H2].
  split; [exact H1|].
  apply (H2 Fixture.stdlib_stub 0 Fixture.memo_field); reflexivity.
Defined.

(** ** C8: opening a memo table without a memo source *)

(** C8 as stated fails when the version check rejects the table first:
    prepareDBF validates the version and reads the field descriptors
    before OpenStream looks at the memo flag.  A header with version
    byte 3 and the memo flag set yields ErrUntestedVersion, not
    ErrNoFPTFile. *)
Lemma OpenStream_C8_counterexample :
  option_map TableFlags (fst (fst (readDBFHeader (mkReader (Fixture.image 3 2) 0)))) = Some 2 /\
  OpenStream (mkReader (Fixture.image 3 2) 0) None UTF8Decoder
    = (None, Some (ErrUntestedVersion 3)).
Proof. split; vm_compute; reflexivity. Qed.

(** C8 (amended): when the header parses and has the memo flag set,
    OpenStream without a memo source fails: with the version error if the
    version is not supported, else with the error of reading the field
    descriptors if there is one, else with ErrNoFPTFile.  No table is
    returned, so no record can be read. *)
Theorem OpenStream_no_memo_source : forall dbffile dc h rd1,
  readDBFHeader dbffile = (Some h, None, rd1) ->
  Z.land (TableFlags h) 2 <> 0 ->
  OpenStream dbffile None dc =
    (None, Some (match validFileVersion (FileVersion h) with
                 | Some e => e
                 | None => match readHeaderFields rd1 with
                           | (_, Some e, _) => e
                           | _ => ErrNoFPTFile
                           end
                 end)).
Proof.
  intros dbffile dc h rd1 Hh Hflag.
  unfold OpenStream, prepareDBF. rewrite Hh.
  destruct (validFileVersion (FileVersion h)) as [e|]; [reflexivity|].
  destruct (readHeaderFields rd1) as [[fs [e|]] rd2]; [reflexivity|].
  cbn [header]. destruct (Z.eqb_spec (Z.land (TableFlags h) 2) 0); [contradiction|].
  reflexivity.
Qed.

Lemma OpenStream_no_memo_source_witness :
  (readDBFHeader (mkReader (Fixture.image 48 2) 0)
     = (Some (mkDBFHeader 48 24 1 1 2 97 6 (repeat 0 16) 2 0), None,
        mkReader (Fixture.image 48 2) 30) /\
   Z.land (TableFlags (mkDBFHeader 48 24 1 1 2 97 6 (repeat 0 16) 2 0)) 2 <> 0) /\
  OpenStream (mkReader (Fixture.image 48 2) 0) None UTF8Decoder = (None, Some ErrNoFPTFile).
Proof.
  assert (Hh : readDBFHeader (mkReader (Fixture.image 48 2) 0)
     = (Some (mkDBFHeader 48 24 1 1 2 97 6 (repeat 0 16) 2 0), None,
        mkReader (Fixture.image 48 2) 30)) by (vm_compute; reflexivity).
  assert (Hflag : Z.land (TableFlags (mkDBFHeader 48 24 1 1 2 97 6 (repeat 0 16) 2 0)) 2 <> 0)
    by (vm_compute; discriminate).
  split; [split; [exact Hh | exact Hflag]|].
  rewrite (OpenStream_no_memo_source _ UTF8Decoder _ _ Hh Hflag).
  vm_compute. reflexivity.
Defined.

(** * Further properties of the reader *)

(** ** The cursor *)

(** Skip and GoTo never panic and always leave the record pointer in
    [0, NumRec], the header unchanged. *)
Theorem cursor_in_range : forall d k recno,
  0 <= NumRec (header d) -> 0 <= recno ->
  match Skip k d with
  | Some (_, d') => header d' = header d /\ 0 <= recpointer d' <= NumRec (header d)
  | None => False
  end /\
  match GoTo recno d with
  | Some (_, d') => header d' = header d /\ 0 <= recpointer d' <= NumRec (header d)
  | None => False
  end.
Proof.
  intros d k recno Hn Hr. unfold Skip, GoTo, bind, get, put, ret. cbn beta iota zeta.
  split.
  - destruct (Z.leb_spec (NumRec (header d)) (swrap 64 (recpointer d + k)));
      cbn [set_recpointer recpointer header]; [split; [reflexivity | lia]|].
    destruct (Z.ltb_spec (swrap 64 (recpointer d + k)) 0);
      cbn [set_recpointer recpointer header]; split; try reflexivity; lia.
  - destruct (Z.leb_spec (NumRec (header d)) recno);
      cbn [set_recpointer recpointer header]; split; try reflexivity; lia.
Qed.

Lemma cursor_in_range_witness :
  (0 <= NumRec (header Fixture.table) /\ 0 <= 5) /\
  match Skip (-7) Fixture.table with
  | Some (_, d') => header d' = header Fixture.table /\
                    0 <= recpointer d' <= NumRec (header Fixture.table)
  | None => False
  end.
Proof.
  assert (Hn : 0 <= NumRec (header Fixture.table)) by (vm_compute; discriminate).
  assert (Hr : 0 <= 5) by lia.
  split; [split; assumption|].
  exact (proj1 (cursor_in_range Fixture.table (-7) 5 Hn Hr)).
Defined.

(** The error of Skip and GoTo tells where the pointer is left: no error
    means EOF() is false afterwards, ErrEOF means EOF() is true, and
    Skip's ErrBOF means BOF() is true.  No other error is returned. *)
Theorem cursor_flags : forall d k recno,
  match Skip k d with
  | Some (err, d') =>
    (err = None /\ EOF d' = false) \/ (err = Some ErrEOF /\ EOF d' = true) \/
    (err = Some ErrBOF /\ BOF d' = true)
  | None => False
  end /\
  match GoTo recno d with
  | Some (err, d') => (err = None /\ EOF d' = false) \/ (err = Some ErrEOF /\ EOF d' = true)
  | None => False
  end.
Proof.
  intros d k recno. unfold Skip, GoTo, bind, get, put, ret, EOF, BOF. cbn beta iota zeta.
  split.
  - destruct (Z.leb_spec (NumRec (header d)) (swrap 64 (recpointer d + k)));
      cbn [set_recpointer recpointer header].
    + right; left. split; [reflexivity|]. apply Z.leb_refl.
    + destruct (Z.ltb_spec (swrap 64 (recpointer d + k)) 0);
        cbn [set_recpointer recpointer header].
      * right; right. split; reflexivity.
      * left. split; [reflexivity|]. apply Z.leb_gt. lia.
  - destruct (Z.leb_spec (NumRec (header d)) recno); cbn [set_recpointer recpointer header].
    + right. split; [reflexivity|]. apply Z.leb_refl.
    + left. split; [reflexivity|]. apply Z.leb_gt. lia.
Qed.

(** Once EOF() holds, Record(), Field(p) and Deleted() all return ErrEOF
    without any I/O and without changing the table. *)
Theorem reads_at_EOF : forall lib d p,
  EOF d = true ->
  Record_ lib d = Some ((None, Some ErrEOF), d) /\
  Field lib p d = Some ((VNil, Some ErrEOF), d) /\
  Deleted_ d = Some ((false, Some ErrEOF), d).
Proof.
  intros lib d p He. unfold EOF in He.
  unfold Record_, Field, Deleted_, DeletedAt, readRecord, readField, bind, get, ret.
  cbn beta iota zeta. rewrite He. repeat split; reflexivity.
Qed.

Lemma reads_at_EOF_witness :
  EOF (set_recpointer Fixture.table 2) = true /\
  Field Fixture.stdlib_stub 0 (set_recpointer Fixture.table 2)
    = Some ((VNil, Some ErrEOF), set_recpointer Fixture.table 2).
Proof.
  assert (He : EOF (set_recpointer Fixture.table 2) = true) by (vm_compute; reflexivity).
  split; [exact He|].
  exact (proj1 (proj2 (reads_at_EOF Fixture.stdlib_stub _ 0 He))).
Defined.

(** ** Field names and types *)

Lemma is_bytes_eq : forall a b, is_bytes a b = true <-> a = b.
Proof.
  induction a as [| x a IH]; intros [| y b]; unfold is_bytes; cbn [length combine forallb].
  - split; reflexivity.
  - split; [rewrite andb_true_iff, Z.eqb_eq; intros [H _]; lia | discriminate].
  - split; [rewrite andb_true_iff, Z.eqb_eq; intros [H _]; lia | discriminate].
  - rewrite !andb_true_iff, !Z.eqb_eq. cbn [fst snd].
    specialize (IH b). unfold is_bytes in IH. rewrite andb_true_iff, Z.eqb_eq in IH.
    split.
    + intros [Hl [Hxy Hr]]. subst y. f_equal. apply IH. split; [lia | exact Hr].
    + intros H. injection H as <- <-. split; [reflexivity|]. split; [reflexivity|].
      apply IH. reflexivity.
Qed.

Lemma FieldPosFrom_spec : forall fs s i, 0 <= i ->
  (FieldPosFrom fs s i = -1 /\ ~ In s (map FieldName fs)) \/
  (exists k, FieldPosFrom fs s i = i + Z.of_nat k /\
             nth_error (map FieldName fs) k = Some s /\
             forall j, (j < k)%nat -> nth_error (map FieldName fs) j <> Some s).
Proof.
  induction fs as [| f fs IH]; intros s i Hi; cbn [FieldPosFrom map].
  - left. split; [reflexivity | intros []].
  - destruct (is_bytes (FieldName f) s) eqn:E.
    + apply is_bytes_eq in E. right. exists O. split; [lia|]. split; [cbn; congruence|].
      intros j Hj. lia.
    + assert (Hne : FieldName f <> s) by (intros H; apply is_bytes_eq in H; congruence).
      destruct (IH s (i + 1) ltac:(lia)) as [[H1 H2] | (k & H1 & H2 & H3)].
      * left. split; [exact H1|]. intros [H | H]; [congruence | contradiction].
      * right. exists (S k). split; [lia|]. split; [exact H2|].
        intros [| j] Hj; cbn; [congruence|]. apply H3. lia.
Qed.

(** FieldPos(name) is the index of the first field whose FieldName is
    [name], or -1 when no field has that name. *)
Theorem FieldPos_first_match : forall d s,
  (FieldPos d s = -1 /\ ~ In s (FieldNames d)) \/
  (0 <= FieldPos d s /\ nth_error (FieldNames d) (Z.to_nat (FieldPos d s)) = Some s /\
   forall j, (j < Z.to_nat (FieldPos d s))%nat -> nth_error (FieldNames d) j <> Some s).
Proof.
  intros d s. unfold FieldPos, FieldNames.
  destruct (FieldPosFrom_spec (fields d) s 0 ltac:(lia)) as [H | (k & H1 & H2 & H3)].
  - left. exact H.
  - right. rewrite H1. replace (Z.to_nat (0 + Z.of_nat k)) with k by lia.
    split; [lia|]. split; assumption.
Qed.

(** FieldPos inverts FieldNames: the name at index [i] is found at an
    index at most [i], and at exactly [i] when the names are distinct. *)
Theorem FieldPos_FieldNames : forall d i s,
  nth_error (FieldNames d) i = Some s ->
  0 <= FieldPos d s <= Z.of_nat i /\ (NoDup (FieldNames d) -> FieldPos d s = Z.of_nat i).
Proof.
  intros d i s Hi. unfold FieldPos. unfold FieldNames in *.
  destruct (FieldPosFrom_spec (fields d) s 0 ltac:(lia)) as [[_ Hn] | (k & H1 & H2 & H3)].
  - exfalso. apply Hn. eapply nth_error_In. exact Hi.
  - rewrite H1. assert (Hk : (k <= i)%nat).
    { destruct (Nat.le_gt_cases k i) as [H|H]; [exact H|]. exfalso. exact (H3 i H Hi). }
    split; [lia|]. intros Hnd.
    assert (k = i) by (eapply NoDup_nth_error; [exact Hnd | apply nth_error_Some; congruence
                                               | congruence]).
    lia.
Qed.

Lemma FieldPos_FieldNames_witness :
  nth_error (FieldNames Fixture.table) 1 = Some [73; 68] /\
  FieldPos Fixture.table [73; 68] = 1.
Proof.
  assert (Hi : nth_error (FieldNames Fixture.table) 1 = Some [73; 68])
    by (vm_compute; reflexivity).
  assert (Hnd : NoDup (FieldNames Fixture.table)).
  { vm_compute. constructor; [intros [H | []]; discriminate|].
    constructor; [intros []| constructor]. }
  split; [exact Hi|].
  exact (proj2 (FieldPos_FieldNames Fixture.table 1 _ Hi) Hnd).
Defined.

Lemma drop_zeros_split : forall s,
  exists k, s = repeat 0 k ++ drop_zeros s /\ forall t, drop_zeros s <> 0 :: t.
Proof.
  induction s as [| x s IH].
  - exists O. split; [reflexivity | intros t; discriminate].
  - destruct (Z.eq_dec x 0) as [-> | Hx].
    + destruct IH as [k [Hk Hn]]. exists (S k). cbn [drop_zeros repeat app].
      split; [rewrite <- Hk; reflexivity | exact Hn].
    + exists O. cbn [repeat app].
      assert (E : drop_zeros (x :: s) = x :: s) by (destruct x; try reflexivity; lia).
      rewrite E. split; [reflexivity|]. intros t H. injection H as H _. lia.
Qed.

(** FieldName removes exactly the trailing NUL bytes of the name: the
    name is the result followed by NULs, and the result does not end in
    NUL (NULs inside the name are kept). *)
Theorem FieldName_trailing_nul : forall f,
  (exists k, Name f = FieldName f ++ repeat 0 k) /\
  forall pre, FieldName f <> pre ++ [0].
Proof.
  intros f. unfold FieldName.
  destruct (drop_zeros_split (rev (Name f))) as [k [Hk Hn]].
  split.
  - exists k. rewrite <- (rev_involutive (Name f)) at 1. rewrite Hk at 1. rewrite rev_app_distr.
    f_equal. clear. induction k as [| k IH]; [reflexivity|].
    cbn [repeat rev]. rewrite IH. clear IH. induction k as [| k IH]; [reflexivity|].
    cbn [repeat app]. rewrite IH. reflexivity.
  - intros pre H. apply (Hn (rev pre)).
    rewrite <- (rev_involutive (drop_zeros (rev (Name f)))), H, rev_app_distr.
    reflexivity.
Qed.

(** FieldType converts the type byte with [string(byte)], which yields
    its UTF-8 encoding: one byte below 0x80, two bytes above.  So the
    result equals a one-letter ASCII type code exactly when the type byte
    is that letter, and a type byte of 0x80 or more never matches one. *)
Theorem FieldType_utf8 : forall f c,
  0 <= Type_ f < 256 -> 0 <= c < 128 ->
  (FieldType f = [c] <-> Type_ f = c) /\
  (length (FieldType f) = 1%nat <-> Type_ f < 128).
Proof.
  intros f c Ht Hc. unfold FieldType, string_of_byte.
  destruct (Z.ltb_spec (Type_ f) 128) as [Hlt | Hge].
  - split; split.
    + intros E. injection E. lia.
    + intros ->. reflexivity.
    + intros _. exact Hlt.
    + intros _. reflexivity.
  - split; split.
    + discriminate.
    + lia.
    + discriminate.
    + lia.
Qed.

Lemma FieldType_utf8_witness :
  (0 <= Type_ (mkFieldHeader [] 195 0 1 0 0 0 0 []) < 256 /\ 0 <= 67 < 128) /\
  FieldType (mkFieldHeader [] 195 0 1 0 0 0 0 []) = [195; 131] /\
  length (FieldType (mkFieldHeader [] 195 0 1 0 0 0 0 [])) <> 1%nat.
Proof.
  assert (Ht : 0 <= Type_ (mkFieldHeader [] 195 0 1 0 0 0 0 []) < 256) by (cbn; lia).
  assert (Hc : 0 <= 67 < 128) by lia.
  split; [split; assumption|]. split; [vm_compute; reflexivity|].
  intros H. apply (proj2 (FieldType_utf8 _ 67 Ht Hc)) in H. cbn in H. lia.
Defined.

(** ** Raw reads of records, fields and deletion flags *)

Lemma ReadAt_full : forall rd n off buf,
  ReadAt rd n off = (buf, n, None) ->
  0 <= n /\ buf = firstn (Z.to_nat n) (skipn (Z.to_nat off) (rs rd)) /\
  0 <= off /\ off + n <= Z.of_nat (length (rs rd)).
Proof.
  intros rd n off buf H. unfold ReadAt in H.
  destruct (Z.ltb_spec off 0); [discriminate|].
  destruct (Z.leb_spec (Z.of_nat (length (rs rd))) off); [discriminate|].
  unfold fill in H. cbv beta iota zeta in H.
  pose proof (length_skipn (Z.to_nat off) (rs rd)) as Hl.
  rewrite length_firstn in H.
  destruct (Z.ltb_spec (Z.of_nat (Nat.min (Z.to_nat n) (length (skipn (Z.to_nat off) (rs rd))))) n);
    [discriminate|].
  injection H as Hb Hm.
  assert (E : Nat.min (Z.to_nat n) (length (skipn (Z.to_nat off) (rs rd))) = Z.to_nat n) by lia.
  rewrite E, Nat.sub_diag in Hb. cbn [repeat] in Hb. rewrite app_nil_r in Hb.
  split; [lia|]. split; [symmetry; exact Hb|]. lia.
Qed.

Lemma ReadAt_count : forall rd n off buf m, 0 <= n ->
  ReadAt rd n off = (buf, m, None) -> m = n.
Proof.
  intros rd n off buf m Hn H. unfold ReadAt in H.
  destruct (Z.ltb_spec off 0); [discriminate|].
  destruct (Z.leb_spec (Z.of_nat (length (rs rd))) off); [discriminate|].
  unfold fill in H. cbv beta iota zeta in H.
  rewrite length_firstn in H.
  destruct (Z.ltb_spec (Z.of_nat (Nat.min (Z.to_nat n) (length (skipn (Z.to_nat off) (rs rd))))) n);
    [discriminate|].
  injection H as _ Hm. lia.
Qed.

Lemma ReadAt_err : forall rd n off buf m e,
  ReadAt rd n off = (buf, m, Some e) -> e <> ErrIncomplete.
Proof.
  intros rd n off buf m e H. unfold ReadAt in H.
  destruct (off <? 0); [inversion H; discriminate|].
  destruct (Z.of_nat (length (rs rd)) <=? off); [inversion H; discriminate|].
  unfold fill in H. cbv beta iota zeta in H.
  destruct (_ <? n); inversion H; discriminate.
Qed.

Lemma ReadAt_in : forall rd n off,
  0 <= off -> 0 < n -> off + n <= Z.of_nat (length (rs rd)) ->
  ReadAt rd n off = (firstn (Z.to_nat n) (skipn (Z.to_nat off) (rs rd)), n, None).
Proof.
  intros rd n off Ho Hn Hl. unfold ReadAt.
  destruct (Z.ltb_spec off 0); [lia|].
  destruct (Z.leb_spec (Z.of_nat (length (rs rd))) off); [lia|].
  unfold fill. cbv beta iota zeta.
  pose proof (length_skipn (Z.to_nat off) (rs rd)) as Hs.
  assert (E : length (firstn (Z.to_nat n) (skipn (Z.to_nat off) (rs rd))) = Z.to_nat n)
    by (rewrite length_firstn; lia).
  rewrite E, Nat.sub_diag. cbn [repeat]. rewrite app_nil_r, Z2Nat.id by lia.
  destruct (Z.ltb_spec n n); [lia | reflexivity].
Qed.

Lemma index_In : forall {A} (l : list A) i x, index l i = Some x -> In x l.
Proof.
  intros A l i x H. unfold index in H. destruct (i <? 0); [discriminate|].
  eapply nth_error_In. exact H.
Qed.

Lemma decodeFields_deleted : forall lib data deleted n i off acc d rec e d',
  decodeFields lib data deleted n i off acc d = Some ((Some rec, e), d') -> Deleted rec = deleted.
Proof.
  intros lib data deleted n. induction n as [| n IH]; intros i off acc d rec e d' H;
    cbn [decodeFields] in H; unfold bind, get, lift, ret in H.
  - injection H as <- _ _. reflexivity.
  - destruct (nth_error (fields d) i) as [fi|]; [|discriminate].
    destruct (slice data off (uwrap 16 (off + Len fi))) as [raw|]; [|discriminate].
    destruct (fieldDataToValue lib raw (Z.of_nat i) d) as [[[v [er|]] d2]|]; [| |discriminate].
    + injection H as <- _ _. reflexivity.
    + eapply IH. exact H.
Qed.

Lemma bytesToRecord_deleted : forall lib data d rec e d',
  bytesToRecord lib data d = Some ((Some rec, e), d') ->
  exists b rest, data = b :: rest /\ Deleted rec = (b =? 42).
Proof.
  intros lib data d rec e d' H. unfold bytesToRecord, bind, lift, get, ret in H.
  destruct data as [| b rest]; [discriminate|]. cbn [index] in H.
  unfold index in H. cbn in H.
  exists b, rest. split; [reflexivity|].
  destruct (negb (b =? 42) && negb (b =? 32)); [discriminate|].
  eapply decodeFields_deleted. exact H.
Qed.

Lemma firstn_cons_inv : forall {A} k (l : list A) b rest,
  firstn k l = b :: rest -> exists t, l = b :: t /\ (1 <= k)%nat.
Proof.
  intros A [| k] [| x l] b rest H; cbn in H; try discriminate.
  injection H as -> _. exists l. split; [reflexivity | lia].
Qed.

(** DeletedAt(n) agrees with the record read: whenever RecordAt(n)
    returns a Record, DeletedAt(n) returns its Deleted flag without
    error. *)
Theorem DeletedAt_agrees : forall lib d n rec err d',
  RecordAt lib n d = Some ((Some rec, err), d') ->
  option_map fst (DeletedAt n d) = Some (Deleted rec, None).
Proof.
  intros lib d n rec err d' H. unfold RecordAt, bind in H.
  destruct (readRecord n d) as [[[buf e0] d1]|] eqn:Er; [|discriminate].
  cbn [fst snd] in H. destruct e0 as [e0|]; [unfold ret in H; discriminate|].
  apply bytesToRecord_deleted in H. destruct H as (b & rest & -> & Hdel).
  unfold readRecord, bind, get, ret, put in Er. cbn beta iota zeta in Er.
  destruct (Z.leb_spec (NumRec (header d)) n) as [Hge | Hlt]; [discriminate|].
  destruct (ReadAt (r d) (RecLen (header d)) (FirstRec (header d) + n * RecLen (header d)))
    as [[buf0 read] [e1|]] eqn:Ea; [discriminate|].
  destruct (Z.eqb_spec read (RecLen (header d))) as [Hrd|]; [|discriminate].
  injection Er as Hb _. subst buf0 read.
  apply ReadAt_full in Ea. destruct Ea as (HR & Hbuf & Hpos & Hend).
  symmetry in Hbuf. apply firstn_cons_inv in Hbuf. destruct Hbuf as (t & Ht & Hk).
  unfold DeletedAt, bind, get, put, ret. cbn beta iota zeta.
  destruct (Z.leb_spec (NumRec (header d)) n); [lia|].
  rewrite ReadAt_in by lia. rewrite Ht. cbn. rewrite Hdel. reflexivity.
Qed.

Lemma DeletedAt_agrees_witness :
  RecordAt Fixture.stdlib_stub 1 Fixture.table
    = Some ((Some (mkRecord true [VBool false; VInt32 (-1)]), None),
            log_io Fixture.table (EvReadAt SrcDBF 103 6)) /\
  option_map fst (DeletedAt 1 Fixture.table) = Some (true, None).
Proof.
  assert (H : RecordAt Fixture.stdlib_stub 1 Fixture.table
    = Some ((Some (mkRecord true [VBool false; VInt32 (-1)]), None),
            log_io Fixture.table (EvReadAt SrcDBF 103 6))) by (vm_compute; reflexivity).
  split; [exact H|].
  exact (DeletedAt_agrees _ _ _ _ _ _ H).
Defined.

(** With a non-negative record length and field lengths, readRecord,
    readField and DeletedAt never return ErrIncomplete: a read of the
    source that comes up short always carries its own error (io.EOF),
    which is returned instead. *)
Theorem reads_never_incomplete : forall d n p,
  0 <= RecLen (header d) -> Forall (fun f => 0 <= Len f) (fields d) ->
  (forall res d', readRecord n d = Some (res, d') -> snd res <> Some ErrIncomplete) /\
  (forall res d', readField n p d = Some (res, d') -> snd res <> Some ErrIncomplete) /\
  (forall res d', DeletedAt n d = Some (res, d') -> snd res <> Some ErrIncomplete).
Proof.
  intros d n p HR HL. split; [|split]; intros res d' H.
  - unfold readRecord, bind, get, ret, put in H. cbn beta iota zeta in H.
    destruct (NumRec (header d) <=? n); [injection H as <- _; discriminate|].
    destruct (ReadAt (r d) (RecLen (header d)) (FirstRec (header d) + n * RecLen (header d)))
      as [[buf m] [e|]] eqn:Ea.
    + injection H as <- _. apply ReadAt_err in Ea. cbn. congruence.
    + rewrite (ReadAt_count _ _ _ _ _ HR Ea), Z.eqb_refl in H.
      injection H as <- _. discriminate.
  - unfold readField, bind, get, ret, put, lift in H. cbn beta iota zeta in H.
    destruct (NumRec (header d) <=? n); [injection H as <- _; discriminate|].
    destruct ((p <? 0) || (NumFields d <? p)); [injection H as <- _; discriminate|].
    destruct (index (fields d) p) as [f|] eqn:Ei; [|discriminate].
    assert (Hf : 0 <= Len f) by (rewrite Forall_forall in HL; apply HL; eapply index_In; exact Ei).
    destruct (ReadAt (r d) (Len f) (FirstRec (header d) + n * RecLen (header d) + Pos f))
      as [[buf m] [e|]] eqn:Ea.
    + injection H as <- _. apply ReadAt_err in Ea. cbn. congruence.
    + rewrite (ReadAt_count _ _ _ _ _ Hf Ea), Z.eqb_refl in H.
      injection H as <- _. discriminate.
  - unfold DeletedAt, bind, get, ret, put in H. cbn beta iota zeta in H.
    destruct (NumRec (header d) <=? n); [injection H as <- _; discriminate|].
    destruct (ReadAt (r d) 1 (FirstRec (header d) + n * RecLen (header d)))
      as [[buf m] [e|]] eqn:Ea.
    + injection H as <- _. apply ReadAt_err in Ea. cbn. congruence.
    + rewrite (ReadAt_count _ 1 _ _ _ ltac:(lia) Ea), Z.eqb_refl in H.
      injection H as <- _. discriminate.
Qed.

Lemma reads_never_incomplete_witness :
  (0 <= RecLen (header Fixture.table) /\ Forall (fun f => 0 <= Len f) (fields Fixture.table)) /\
  forall res d', readRecord 5 Fixture.table = Some (res, d') -> snd res <> Some ErrIncomplete.
Proof.
  assert (HR : 0 <= RecLen (header Fixture.table)) by (vm_compute; discriminate).
  assert (HL : Forall (fun f => 0 <= Len f) (fields Fixture.table)).
  { vm_compute. constructor; [discriminate|]. constructor; [discriminate | constructor]. }
  split; [split; assumption|].
  exact (proj1 (reads_never_incomplete Fixture.table 5 0 HR HL)).
Defined.

(** A single-field read returns the field's slice of the whole-record
    read: when readRecord(n) succeeds, field [p] passes readField's guard
    (p <= NumFields(), the uint16 field count) and lies inside the record
    (0 <= Pos, 0 < Len, Pos + Len <= RecLen), readField(n, p) returns
    bytes [Pos, Pos + Len) of the record without error. *)
Theorem readField_in_record : forall d n p f buf d1,
  index (fields d) p = Some f -> p <= NumFields d ->
  0 <= Pos f -> 0 < Len f -> Pos f + Len f <= RecLen (header d) ->
  readRecord n d = Some ((buf, None), d1) ->
  option_map fst (readField n p d) =
    Some (firstn (Z.to_nat (Len f)) (skipn (Z.to_nat (Pos f)) buf), None).
Proof.
  intros d n p f buf d1 Hi Hlen HP HL Hin Er.
  pose proof (index_some_range _ _ _ Hi) as Hp.
  unfold readRecord, bind, get, ret, put in Er. cbn beta iota zeta in Er.
  destruct (Z.leb_spec (NumRec (header d)) n); [discriminate|].
  destruct (ReadAt (r d) (RecLen (header d)) (FirstRec (header d) + n * RecLen (header d)))
    as [[buf0 read] [e1|]] eqn:Ea; [discriminate|].
  destruct (Z.eqb_spec read (RecLen (header d))); [|discriminate].
  injection Er as Hb _. subst buf0 read.
  apply ReadAt_full in Ea. destruct Ea as (HR & Hbuf & Hpos & Hend).
  unfold readField, bind, get, ret, put, lift. cbn beta iota zeta.
  destruct (Z.leb_spec (NumRec (header d)) n); [lia|].
  destruct (Z.ltb_spec p 0); [lia|]. destruct (Z.ltb_spec (NumFields d) p); [lia|].
  cbn [orb]. rewrite Hi. cbn beta iota.
  rewrite ReadAt_in by lia. rewrite Z.eqb_refl. cbn.
  f_equal. f_equal. rewrite Hbuf, skipn_firstn_comm, firstn_firstn, skipn_skipn.
  f_equal; [lia|]. f_equal. lia.
Qed.

Lemma readField_in_record_witness :
  readRecord 0 Fixture.table = Some (([32; 84; 7; 0; 0; 0], None),
                                     log_io Fixture.table (EvReadAt SrcDBF 97 6)) /\
  option_map fst (readField 0 1 Fixture.table) = Some ([7; 0; 0; 0], None).
Proof.
  assert (Hi : index (fields Fixture.table) 1 = Some (mkFieldHeader
     [73; 68; 0; 0; 0; 0; 0; 0; 0; 0; 0] 73 2 4 0 0 0 0 [0; 0; 0; 0; 0; 0; 0; 13]))
    by (vm_compute; reflexivity).
  assert (Hlen : 1 <= NumFields Fixture.table) by (vm_compute; discriminate).
  assert (Er : readRecord 0 Fixture.table = Some (([32; 84; 7; 0; 0; 0], None),
                                     log_io Fixture.table (EvReadAt SrcDBF 97 6)))
    by (vm_compute; reflexivity).
  split; [exact Er|].
  rewrite (readField_in_record _ _ _ _ _ _ Hi Hlen ltac:(cbn; lia) ltac:(cbn; lia)
             ltac:(vm_compute; discriminate) Er).
  vm_compute. reflexivity.
Defined.

(** ** Header arithmetic *)

(** DBFHeader.NumFields() computes [FirstRec - 296] in uint16: for
    FirstRec >= 296 it is (FirstRec - 296) / 32, and for a smaller
    FirstRec the subtraction wraps around and the count is between 2038
    and 2047. *)
Theorem HeaderNumFields_wrap : forall h, 0 <= FirstRec h < 65536 ->
  (296 <= FirstRec h -> HeaderNumFields h = (FirstRec h - 296) / 32) /\
  (FirstRec h < 296 ->
     HeaderNumFields h = (FirstRec h + 65240) / 32 /\ 2038 <= HeaderNumFields h <= 2047).
Proof.
  intros h H. unfold HeaderNumFields, uwrap. change (2 ^ 16) with 65536.
  split; intros H2.
  - rewrite Z.mod_small by lia. reflexivity.
  - rewrite <- (Z.mod_unique (FirstRec h - 296) 65536 (-1) (FirstRec h + 65240)); [| lia | lia].
    split; [reflexivity|]. split.
    + apply Z.div_le_lower_bound; lia.
    + apply Z.lt_succ_r, Z.div_lt_upper_bound; lia.
Qed.

Lemma HeaderNumFields_wrap_witness :
  0 <= FirstRec (header Fixture.table) < 65536 /\
  HeaderNumFields (header Fixture.table) = 2041.
Proof.
  assert (H : 0 <= FirstRec (header Fixture.table) < 65536) by (vm_compute; split; congruence).
  split; [exact H|].
  rewrite (proj1 (proj2 (HeaderNumFields_wrap _ H) ltac:(vm_compute; reflexivity))).
  vm_compute. reflexivity.
Defined.

(** DBFHeader.FileSize() is 296 + 32 * NumFields() + NumRec * RecLen,
    where the last product is taken modulo 2^32 (uint32 arithmetic); the
    uint16 product NumFields() * 32 never wraps. *)
Theorem FileSize_formula : forall h,
  0 <= FirstRec h < 65536 -> 0 <= NumRec h < 2 ^ 32 -> 0 <= RecLen h < 65536 ->
  FileSize h = 296 + 32 * HeaderNumFields h + (NumRec h * RecLen h) mod 2 ^ 32.
Proof.
  intros h HF HN HR. unfold FileSize.
  assert (Hb : 0 <= HeaderNumFields h <= 2047).
  { unfold HeaderNumFields, uwrap. change (2 ^ 16) with 65536.
    pose proof (Z.mod_pos_bound (FirstRec h - 296) 65536 ltac:(lia)).
    split; [apply Z.div_pos; lia|]. apply Z.lt_succ_r, Z.div_lt_upper_bound; lia. }
  unfold uwrap at 1. rewrite Z.mod_small by (change (2 ^ 16) with 65536; lia).
  unfold uwrap. lia.
Qed.

Lemma FileSize_formula_witness :
  (0 <= FirstRec (mkDBFHeader 48 24 1 1 (2 ^ 20) 360 4096 (repeat 0 16) 0 0) < 65536 /\
   0 <= NumRec (mkDBFHeader 48 24 1 1 (2 ^ 20) 360 4096 (repeat 0 16) 0 0) < 2 ^ 32 /\
   0 <= RecLen (mkDBFHeader 48 24 1 1 (2 ^ 20) 360 4096 (repeat 0 16) 0 0) < 65536) /\
  FileSize (mkDBFHeader 48 24 1 1 (2 ^ 20) 360 4096 (repeat 0 16) 0 0) = 360.
Proof.
  assert (H1 : 0 <= FirstRec (mkDBFHeader 48 24 1 1 (2 ^ 20) 360 4096 (repeat 0 16) 0 0) < 65536)
    by (cbn; lia).
  assert (H2 : 0 <= NumRec (mkDBFHeader 48 24 1 1 (2 ^ 20) 360 4096 (repeat 0 16) 0 0) < 2 ^ 32)
    by (cbn; lia).
  assert (H3 : 0 <= RecLen (mkDBFHeader 48 24 1 1 (2 ^ 20) 360 4096 (repeat 0 16) 0 0) < 65536)
    by (cbn; lia).
  split; [split; [exact H1 | split; assumption]|].
  rewrite (FileSize_formula _ H1 H2 H3). vm_compute. reflexivity.
Defined.

(** ** Decoding of I and L fields, and the cast helpers *)

Lemma le_bytes_PutUint32 : forall x, 0 <= x < 2 ^ 32 -> le_bytes (PutUint32 x) = x.
Proof.
  intros x Hx. unfold PutUint32. cbn [le_bytes].
  change (2 ^ 32) with 4294967296 in Hx.
  Z.div_mod_to_equations. lia.
Qed.

Lemma swrap32_mod : forall v, -2 ^ 31 <= v < 2 ^ 31 -> swrap 32 (v mod 2 ^ 32) = v.
Proof.
  intros v Hv. unfold swrap. change (32 - 1) with 31.
  change (2 ^ 31) with 2147483648 in *. change (2 ^ 32) with 4294967296.
  Z.div_mod_to_equations. lia.
Qed.

Ltac field_type_branch Hidx Hty :=
  unfold fieldDataToValue, bind, get, lift, ret;
  rewrite (fieldpos_guard _ _ _ Hidx), Hidx, Hty; cbn [Z.eqb Pos.eqb].

(** An I field decodes the first four bytes as a little-endian int32:
    the bytes PutUint32 writes for any int32 [v] decode back to [v]
    (extra bytes after them are ignored), and a raw value shorter than
    four bytes makes the decoder panic. *)
Theorem int_field_decoding : forall lib d raw i f,
  index (fields d) i = Some f -> Type_ f = 73 ->
  (forall v rest, -2 ^ 31 <= v < 2 ^ 31 ->
     fieldDataToValue lib (PutUint32 (v mod 2 ^ 32) ++ rest) i d = Some ((VInt32 v, None), d)) /\
  ((length raw < 4)%nat -> fieldDataToValue lib raw i d = None).
Proof.
  intros lib d raw i f Hidx Hty. split.
  - intros v rest Hv. field_type_branch Hidx Hty.
    unfold LEUint32. cbn [length app PutUint32].
    destruct (Z.ltb_spec (Z.of_nat (S (S (S (S (length rest)))))) 4); [lia|].
    cbn [firstn]. fold (PutUint32 (v mod 2 ^ 32)).
    rewrite le_bytes_PutUint32 by (apply Z.mod_pos_bound; lia).
    rewrite swrap32_mod by exact Hv. reflexivity.
  - intros Hl. field_type_branch Hidx Hty.
    unfold LEUint32. destruct (Z.ltb_spec (Z.of_nat (length raw)) 4); [reflexivity | lia].
Qed.

Lemma int_field_decoding_witness :
  fieldDataToValue Fixture.stdlib_stub (PutUint32 ((-5) mod 2 ^ 32)) 1 Fixture.table
    = Some ((VInt32 (-5), None), Fixture.table).
Proof.
  assert (Hi : index (fields Fixture.table) 1 = Some (mkFieldHeader
     [73; 68; 0; 0; 0; 0; 0; 0; 0; 0; 0] 73 2 4 0 0 0 0 [0; 0; 0; 0; 0; 0; 0; 13]))
    by (vm_compute; reflexivity).
  pose proof (proj1 (int_field_decoding Fixture.stdlib_stub Fixture.table [] 1 _ Hi eq_refl)
                (-5) [] ltac:(lia)) as H.
  rewrite app_nil_r in H. exact H.
Defined.

(** An L field never fails: its value is true exactly when the raw bytes
    are the single byte "T"; "t", "Y", "T " and the like are false. *)
Theorem logical_field : forall lib d raw i f,
  index (fields d) i = Some f -> Type_ f = 76 ->
  exists b, fieldDataToValue lib raw i d = Some ((VBool b, None), d) /\
            (b = true <-> raw = [84]).
Proof.
  intros lib d raw i f Hidx Hty. field_type_branch Hidx Hty.
  exists (is_bytes raw [84]). split; [reflexivity|]. apply is_bytes_eq.
Qed.

Lemma logical_field_witness :
  fieldDataToValue Fixture.stdlib_stub [116] 0 Fixture.table
    = Some ((VBool false, None), Fixture.table).
Proof.
  assert (Hi : index (fields Fixture.table) 0 = Some (mkFieldHeader
     [79; 75; 0; 0; 0; 0; 0; 0; 0; 0; 0] 76 1 1 0 0 0 0 [0; 0; 0; 0; 0; 0; 0; 73]))
    by (vm_compute; reflexivity).
  destruct (logical_field Fixture.stdlib_stub Fixture.table [116] 0 _ Hi eq_refl)
    as [b [Hb Hiff]].
  rewrite Hb. destruct b; [|reflexivity].
  assert (E : [116] = [84]) by (apply Hiff; reflexivity). discriminate E.
Defined.

(** The helpers of cast.go assert one Go type, so they read the values
    of some field types as zero: ToInt64 of an I value (an int32) is 0,
    ToFloat64 of an I value or of an N value with no decimals (an int64)
    is 0.0, and ToString of the latter is "". *)
Theorem cast_helpers_mismatch : forall lib d raw i f,
  index (fields d) i = Some f ->
  (Type_ f = 73 ->
     match fieldDataToValue lib raw i d with
     | Some ((v, _), _) => ToInt64 v = 0 /\ ToFloat64 v = S754_zero false
     | None => True
     end) /\
  (Type_ f = 78 -> Decimals f = 0 ->
     match fieldDataToValue lib raw i d with
     | Some ((v, _), _) => ToFloat64 v = S754_zero false /\ ToString v = []
     | None => True
     end).
Proof.
  intros lib d raw i f Hidx. split.
  - intros Hty. field_type_branch Hidx Hty.
    destruct (LEUint32 raw); cbn; [split; reflexivity | exact I].
  - intros Hty Hdec. field_type_branch Hidx Hty. rewrite Hdec. cbn [Z.eqb].
    destruct (parseNumericInt lib raw). split; reflexivity.
Qed.

Lemma cast_helpers_mismatch_witness :
  ToInt64 (fst (fst (match fieldDataToValue Fixture.stdlib_stub [7; 0; 0; 0] 1 Fixture.table with
                     | Some p => p | None => ((VNil, None), Fixture.table) end))) = 0 /\
  fieldDataToValue Fixture.stdlib_stub [7; 0; 0; 0] 1 Fixture.table
    = Some ((VInt32 7, None), Fixture.table).
Proof.
  assert (Hi : index (fields Fixture.table) 1 = Some (mkFieldHeader
     [73; 68; 0; 0; 0; 0; 0; 0; 0; 0; 0] 73 2 4 0 0 0 0 [0; 0; 0; 0; 0; 0; 0; 13]))
    by (vm_compute; reflexivity).
  pose proof (proj1 (cast_helpers_mismatch Fixture.stdlib_stub Fixture.table [7; 0; 0; 0] 1 _ Hi)
                eq_refl) as H.
  assert (E : fieldDataToValue Fixture.stdlib_stub [7; 0; 0; 0] 1 Fixture.table
    = Some ((VInt32 7, None), Fixture.table)) by (vm_compute; reflexivity).
  rewrite E in H |- *. split; [exact (proj1 H) | reflexivity].
Defined.

(** ** Julian day numbers *)

Lemma quot_div_nonneg : forall a b, 0 <= a -> 0 < b -> Z.quot a b = a / b.
Proof. intros a b Ha Hb. apply Z.quot_div_nonneg; lia. Qed.

Lemma div_eqn : forall a b, 0 < b -> exists q r, a / b = q /\ a = b * q + r /\ 0 <= r < b.
Proof.
  intros a b Hb. exists (a / b), (a mod b). split; [reflexivity|].
  split; [apply Z.div_mod; lia | apply Z.mod_pos_bound; lia].
Qed.

(** Replace a truncating division of non-negative operands by a fresh
    quotient and its defining equation. *)
Ltac quot_step a b :=
  rewrite (quot_div_nonneg a b) by lia;
  let q := fresh "q" in let r := fresh "r" in let E := fresh "E" in
  let F := fresh "F" in let R := fresh "R" in
  destruct (div_eqn a b ltac:(lia)) as (q & r & E & F & R); rewrite E in *; clear E.

Lemma J2YMD_facts : forall jd, 0 <= jd ->
  exists y m dd, J2YMD jd = (y, m, dd) /\
    (y < 0 <-> jd < 1721060) /\ (9999 < y <-> 5373484 < jd) /\
    1 <= m <= 12 /\ 1 <= dd <= 31 /\ YMD2J y m dd = jd.
Proof.
  intros d Hd. unfold J2YMD.
  quot_step (4 * (d + 68569)) 146097.
  quot_step (146097 * q + 3) 4.
  quot_step (4000 * (d + 68569 - q0 + 1)) 1461001.
  quot_step (1461 * q1) 4.
  quot_step (80 * (d + 68569 - q0 - q2 + 31)) 2447.
  quot_step (2447 * q3) 80.
  quot_step q3 11.
  eexists _, _, _. split; [reflexivity|].
  split; [lia|]. split; [lia|]. split; [lia|]. split; [lia|].
  assert (Hc : Z.quot (q3 + 2 - 12 * q5 - 14) 12 = - q5).
  { rewrite <- (Z.opp_involutive (q3 + 2 - 12 * q5 - 14)), Z.quot_opp_l by lia.
    rewrite quot_div_nonneg by lia. f_equal.
    destruct (div_eqn (- (q3 + 2 - 12 * q5 - 14)) 12 ltac:(lia)) as (qa & ra & Ea & Fa & Ra).
    rewrite Ea. lia. }
  unfold YMD2J. rewrite Hc.
  quot_step (1461 * (100 * (q - 49) + q1 + q5 + 4800 + - q5)) 4.
  quot_step (367 * (q3 + 2 - 12 * q5 - 2 - - q5 * 12)) 12.
  quot_step (100 * (q - 49) + q1 + q5 + 4900 + - q5) 100.
  match goal with |- context [Z.quot (3 * ?x) 4] => quot_step (3 * x) 4 end.
  lia.
Qed.

(** jd.J2YMD on a uint32 day number (what the T decoder passes; there
    Go's int arithmetic does not overflow) gives a month in 1..12 and a
    day in 1..31 that jd.YMD2J maps back to the same day number; the year
    is negative exactly below day 1721060 and above 9999 exactly above
    day 5373484. *)
Theorem J2YMD_YMD2J : forall jd, 0 <= jd < 2 ^ 32 ->
  let '(y, m, dd) := J2YMD jd in
  (y < 0 <-> jd < 1721060) /\ (9999 < y <-> 5373484 < jd) /\
  1 <= m <= 12 /\ 1 <= dd <= 31 /\ YMD2J y m dd = jd.
Proof.
  intros jd Hjd. destruct (J2YMD_facts jd ltac:(lia)) as (y & m & dd & E & H). rewrite E. exact H.
Qed.

Lemma J2YMD_YMD2J_witness :
  J2YMD 2453738 = (2006, 1, 2) /\ YMD2J 2006 1 2 = 2453738.
Proof.
  pose proof (J2YMD_YMD2J 2453738 ltac:(lia)) as H.
  assert (E : J2YMD 2453738 = (2006, 1, 2)) by (vm_compute; reflexivity).
  rewrite E in H. split; [exact E | exact (proj2 (proj2 (proj2 (proj2 H))))].
Defined.

(** The T decoder returns the zero time for Julian days outside
    [1721060, 5373484], whose years fall outside 0..9999.  Inside that
    range it returns time.Date(y, m, d, 0, 0, 0, ms * 10^6, UTC) with
    0 <= y <= 9999, m in 1..12, d in 1..31, for a date that jd.YMD2J
    maps back to the stored day. *)
Theorem parseDateTime_day_range : forall raw,
  length raw = 8%nat -> Forall (fun b => 0 <= b < 256) raw ->
  (le_bytes (firstn 4 raw) < 1721060 \/ 5373484 < le_bytes (firstn 4 raw) ->
     parseDateTime raw = Some (TimeZero, None)) /\
  (1721060 <= le_bytes (firstn 4 raw) <= 5373484 ->
     exists y m dd,
       parseDateTime raw
         = Some (TimeDateUTC y m dd 0 0 0 (le_bytes (skipn 4 raw) * 1000000), None) /\
       0 <= y <= 9999 /\ 1 <= m <= 12 /\ 1 <= dd <= 31 /\
       YMD2J y m dd = le_bytes (firstn 4 raw)).
Proof.
  intros raw Hlen Hb.
  assert (Hnn : 0 <= le_bytes (firstn 4 raw)).
  { apply le_bytes_nonneg. rewrite Forall_forall in *. intros x Hx.
    apply Hb. rewrite <- (firstn_skipn 4 raw). apply in_or_app. left. exact Hx. }
  do 8 (destruct raw as [| ? raw]; [discriminate|]).
  destruct raw; [|discriminate].
  destruct (J2YMD_facts _ Hnn) as (y & m & dd & E & Hneg & Hbig & Hm & Hd & Hinv).
  unfold parseDateTime. cbn -[J2YMD le_bytes].
  cbn [firstn] in E, Hneg, Hbig, Hinv, Hnn |- *. rewrite E.
  split.
  - intros Hout. destruct (Z.ltb_spec y 0); [reflexivity|].
    destruct (Z.ltb_spec 9999 y); [reflexivity|]. lia.
  - intros Hin. exists y, m, dd.
    destruct (Z.ltb_spec y 0); [lia|]. destruct (Z.ltb_spec 9999 y); [lia|].
    split; [reflexivity|]. lia.
Qed.

Lemma parseDateTime_day_range_witness :
  parseDateTime (PutUint32 2453738 ++ PutUint32 1000)
    = Some (TimeDateUTC 2006 1 2 0 0 0 1000000000, None) /\
  parseDateTime (PutUint32 5373485 ++ PutUint32 0) = Some (TimeZero, None).
Proof.
  assert (Hl : forall x y, length (PutUint32 x ++ PutUint32 y) = 8%nat) by reflexivity.
  assert (Hb : forall x y, 0 <= x -> 0 <= y ->
            Forall (fun b => 0 <= b < 256) (PutUint32 x ++ PutUint32 y)).
  { intros x y Hx Hy. unfold PutUint32.
    repeat constructor; try apply Z.mod_pos_bound; lia. }
  split.
  - destruct (proj2 (parseDateTime_day_range _ (Hl 2453738 1000)
                       (Hb 2453738 1000 ltac:(lia) ltac:(lia)))
                ltac:(vm_compute; split; discriminate)) as (y & m & dd & E & _).
    rewrite E. vm_compute in E. injection E as Ey Em Ed. subst. vm_compute. reflexivity.
  - apply (proj1 (parseDateTime_day_range _ (Hl 5373485 0) (Hb 5373485 0 ltac:(lia) ltac:(lia)))).
    right. vm_compute. reflexivity.
Defined.

(** ** Opening *)

Lemma ReadFull_start : forall bs n, 0 < n ->
  ((Z.to_nat n <= length bs)%nat ->
     ReadFull (mkReader bs 0) n = (firstn (Z.to_nat n) bs, None, mkReader bs n)) /\
  (bs = [] -> snd (fst (ReadFull (mkReader bs 0) n)) = Some IoEOF) /\
  ((0 < length bs < Z.to_nat n)%nat ->
     snd (fst (ReadFull (mkReader bs 0) n)) = Some IoErrUnexpectedEOF).
Proof.
  intros bs n Hn. unfold ReadFull, Read. cbn [rs ri]. split; [|split]; intros H.
  - destruct (Z.leb_spec (Z.of_nat (length bs)) 0); [lia|].
    unfold fill. cbv beta iota zeta. cbn [Z.to_nat skipn].
    assert (E : length (firstn (Z.to_nat n) bs) = Z.to_nat n) by (rewrite length_firstn; lia).
    rewrite E, Nat.sub_diag. cbn [repeat]. rewrite app_nil_r, Z2Nat.id by lia.
    destruct (Z.ltb_spec n n); [lia|]. rewrite Z.add_0_l. reflexivity.
  - subst bs. reflexivity.
  - destruct (Z.leb_spec (Z.of_nat (length bs)) 0); [lia|].
    unfold fill. cbv beta iota zeta. cbn [Z.to_nat skipn].
    rewrite firstn_all2 by lia.
    destruct (Z.ltb_spec (Z.of_nat (length bs)) n); [reflexivity | lia].
Qed.

(** readDBFHeader reads the first 30 bytes of the source, wherever the
    source was positioned: a source of 30 bytes or more gives the header
    decoded from them, an empty source gives io.EOF and a shorter one
    io.ErrUnexpectedEOF. *)
Theorem readDBFHeader_sizes : forall rd,
  ((30 <= length (rs rd))%nat ->
     readDBFHeader rd = (Some (decodeDBFHeader (firstn 30 (rs rd))), None, mkReader (rs rd) 30)) /\
  (rs rd = [] -> fst (readDBFHeader rd) = (None, Some IoEOF)) /\
  ((0 < length (rs rd) < 30)%nat -> fst (readDBFHeader rd) = (None, Some IoErrUnexpectedEOF)).
Proof.
  intros rd. unfold readDBFHeader. rewrite (Seek_start rd 0) by lia. cbv beta iota.
  destruct (ReadFull_start (rs rd) 30 ltac:(lia)) as (H1 & H2 & H3).
  split; [|split]; intros H.
  - rewrite (H1 H). reflexivity.
  - specialize (H2 H).
    destruct (ReadFull (mkReader (rs rd) 0) 30) as [[buf [e|]] rd2]; cbn in H2 |- *;
      [congruence | discriminate].
  - specialize (H3 H).
    destruct (ReadFull (mkReader (rs rd) 0) 30) as [[buf [e|]] rd2]; cbn in H3 |- *;
      [congruence | discriminate].
Qed.

Lemma firstn1_skipn : forall (l : list Z) i, (i < length l)%nat ->
  firstn 1 (skipn i l) = [nth i l 0].
Proof.
  induction l as [| x l IH]; intros [| i] H; cbn in H |- *; try lia; [reflexivity|].
  apply IH. lia.
Qed.

Lemma ReadFull_at : forall rd n, 0 <= ri rd -> 0 < n ->
  ri rd + n <= Z.of_nat (length (rs rd)) ->
  ReadFull rd n =
    (firstn (Z.to_nat n) (skipn (Z.to_nat (ri rd)) (rs rd)), None, mkReader (rs rd) (ri rd + n)).
Proof.
  intros rd n Hi Hn Hl. unfold ReadFull.
  rewrite (Read_prefix rd n (firstn (Z.to_nat n) (skipn (Z.to_nat (ri rd)) (rs rd))));
    [| lia | lia | reflexivity | rewrite length_firstn, length_skipn; lia].
  destruct (Z.ltb_spec n n); [lia | reflexivity].
Qed.

Lemma readFieldsLoop_layout : forall bs k j0 acc fuel rd0,
  rs rd0 = bs -> (k < fuel)%nat ->
  (32 + 32 * (j0 + k) < length bs)%nat ->
  nth (32 + 32 * (j0 + k)) bs 0 = 13 ->
  (forall j, (j0 <= j < j0 + k)%nat -> nth (32 + 32 * j) bs 0 <> 13) ->
  fst (readFieldsLoop fuel (Z.of_nat (32 + 32 * j0)) acc rd0) =
    (acc ++ map (fun j => decodeFieldHeader (sub bs (32 + 32 * j) (65 + 32 * j))) (seq j0 k), None).
Proof.
  intros bs k. induction k as [| k IH]; intros j0 acc fuel rd0 Hrs Hf Hlen H13 Hne;
    (destruct fuel as [| fuel]; [lia|]); cbn [readFieldsLoop];
    rewrite Seek_start by lia; cbv beta iota;
    (rewrite (Read_prefix (mkReader (rs rd0) (Z.of_nat (32 + 32 * j0))) 1
               [nth (32 + 32 * j0) bs 0]);
      [| cbn; lia | lia | cbn [rs ri]; rewrite Nat2Z.id, Hrs; apply firstn1_skipn; lia
       | reflexivity]);
    cbv beta iota; cbn [at_ nth].
  - rewrite Nat.add_0_r in H13. rewrite H13, Z.eqb_refl, app_nil_r. reflexivity.
  - assert (Hx : nth (32 + 32 * j0) bs 0 <> 13) by (apply Hne; lia).
    destruct (Z.eqb_spec (nth (32 + 32 * j0) bs 0) 13); [contradiction|].
    unfold Seek. cbn [Z.eqb Pos.eqb ri rs].
    destruct (Z.ltb_spec (Z.of_nat (32 + 32 * j0) + 1 + -1) 0); [lia|]. cbv beta iota.
    rewrite ReadFull_at by (cbn [ri rs]; rewrite ?Hrs; lia). cbv beta iota.
    cbn [ri rs].
    replace (Z.of_nat (32 + 32 * j0) + 32) with (Z.of_nat (32 + 32 * S j0)) by lia.
    rewrite (IH (S j0)); [| exact Hrs | lia
                          | replace (S j0 + k)%nat with (j0 + S k)%nat by lia; exact Hlen
                          | replace (S j0 + k)%nat with (j0 + S k)%nat by lia; exact H13
                          | intros j Hj; apply Hne; lia].
    rewrite <- app_assoc. cbn [seq map app]. do 3 f_equal.
    unfold sub. rewrite Hrs. do 2 f_equal; [lia | f_equal; lia].
Qed.

(** readHeaderFields reads a field descriptor every 32 bytes from offset
    32 until the first such offset that holds the terminator 0x0D:
    descriptor [j] is decoded from the 33 bytes at 32 + 32 j (the last
    one, binary.Read's size of FieldHeader, is the first byte of the next
    slot). *)
Theorem readHeaderFields_layout : forall rd k,
  (32 + 32 * k < length (rs rd))%nat ->
  nth (32 + 32 * k) (rs rd) 0 = 13 ->
  (forall j, (j < k)%nat -> nth (32 + 32 * j) (rs rd) 0 <> 13) ->
  fst (readHeaderFields rd) =
    (map (fun j => decodeFieldHeader (sub (rs rd) (32 + 32 * j) (65 + 32 * j))) (seq 0 k), None).
Proof.
  intros rd k Hlen H13 Hne. unfold readHeaderFields.
  apply (readFieldsLoop_layout (rs rd) k 0 [] (S (length (rs rd))) rd); try reflexivity;
    try lia; try exact Hlen; try exact H13.
  intros j Hj. apply Hne. lia.
Qed.

Lemma readHeaderFields_layout_witness :
  fst (readHeaderFields (mkReader (Fixture.image 48 0) 30)) =
    (map (fun j => decodeFieldHeader (sub (Fixture.image 48 0) (32 + 32 * j) (65 + 32 * j)))
         (seq 0 2), None).
Proof.
  apply (readHeaderFields_layout (mkReader (Fixture.image 48 0) 30) 2).
  - vm_compute. lia.
  - vm_compute. reflexivity.
  - intros j Hj. destruct j as [| [| j]]; [vm_compute; discriminate | vm_compute; discriminate | lia].
Defined.

(** With the memo flag clear, OpenStream ignores the memo source it is
    given: the result is the same as with none, and a table it returns
    has no memo file, the parsed header and its pointer at record 0. *)
Theorem OpenStream_flag_clear : forall dbffile fpt dc h rd1,
  readDBFHeader dbffile = (Some h, None, rd1) -> Z.land (TableFlags h) 2 = 0 ->
  OpenStream dbffile fpt dc = OpenStream dbffile None dc /\
  match fst (OpenStream dbffile None dc) with
  | Some d => header d = h /\ fptr d = None /\ fptheader d = None /\ recpointer d = 0
  | None => True
  end.
Proof.
  intros dbffile fpt dc h rd1 Hh Hflag. unfold OpenStream, prepareDBF. rewrite Hh.
  destruct (validFileVersion (FileVersion h)); [split; [reflexivity | exact I]|].
  destruct (readHeaderFields rd1) as [[fs [e|]] rd2]; [split; [reflexivity | exact I]|].
  cbn [header]. rewrite Hflag. cbn.
  split; [reflexivity|]. repeat split.
Qed.

Lemma OpenStream_flag_clear_witness :
  OpenStream (mkReader (Fixture.image 48 0) 0) (Some (mkReader [1; 2; 3] 0)) UTF8Decoder
    = OpenStream (mkReader (Fixture.image 48 0) 0) None UTF8Decoder.
Proof.
  assert (Hh : readDBFHeader (mkReader (Fixture.image 48 0) 0)
     = (Some (mkDBFHeader 48 24 1 1 2 97 6 (repeat 0 16) 0 0), None,
        mkReader (Fixture.image 48 0) 30)) by (vm_compute; reflexivity).
  exact (proj1 (OpenStream_flag_clear _ (Some (mkReader [1; 2; 3] 0)) UTF8Decoder _ _ Hh
                  ltac:(vm_compute; reflexivity))).
Defined.

(** With the memo flag set and a memo source given, OpenStream reads the
    first 8 bytes of the memo source as its header (big endian): it
    succeeds when the source has at least 8 bytes, leaving the rest of
    the table as prepareDBF built it, and fails with io.EOF on an empty
    source and io.ErrUnexpectedEOF on a shorter one. *)
Theorem OpenStream_memo_source : forall dbffile fptfile dc d,
  prepareDBF dbffile dc = (Some d, None) -> Z.land (TableFlags (header d)) 2 <> 0 ->
  ((8 <= length (rs fptfile))%nat ->
     OpenStream dbffile (Some fptfile) dc =
       (Some (mkDBF (header d) (Some (decodeFPTHeader (firstn 8 (rs fptfile)))) (r d)
                    (Some (mkReader (rs fptfile) 8)) (dec d) (fields d) (recpointer d) (trace d)),
        None)) /\
  (rs fptfile = [] -> OpenStream dbffile (Some fptfile) dc = (None, Some IoEOF)) /\
  ((0 < length (rs fptfile) < 8)%nat ->
     OpenStream dbffile (Some fptfile) dc = (None, Some IoErrUnexpectedEOF)).
Proof.
  intros dbffile fptfile dc d Hp Hflag. unfold OpenStream. rewrite Hp.
  destruct (Z.eqb_spec (Z.land (TableFlags (header d)) 2) 0); [contradiction|]. cbn [negb].
  unfold prepareFPT, readFPTHeader. rewrite (Seek_start fptfile 0) by lia. cbv beta iota.
  destruct (ReadFull_start (rs fptfile) 8 ltac:(lia)) as (H1 & H2 & H3).
  split; [|split]; intros H.
  - rewrite (H1 H). reflexivity.
  - specialize (H2 H).
    destruct (ReadFull (mkReader (rs fptfile) 0) 8) as [[buf [e|]] rd2]; cbn in H2 |- *;
      [congruence | discriminate].
  - specialize (H3 H).
    destruct (ReadFull (mkReader (rs fptfile) 0) 8) as [[buf [e|]] rd2]; cbn in H3 |- *;
      [congruence | discriminate].
Qed.

Lemma OpenStream_memo_source_witness :
  OpenStream (mkReader (Fixture.image 48 2) 0) (Some (mkReader [0; 0; 0; 2; 0] 0)) UTF8Decoder
    = (None, Some IoErrUnexpectedEOF).
Proof.
  assert (Hp : prepareDBF (mkReader (Fixture.image 48 2) 0) UTF8Decoder
               = (Some (Fixture.prepared (Fixture.image 48 2)), None))
    by (vm_compute; reflexivity).
  exact (proj2 (proj2 (OpenStream_memo_source _ (mkReader [0; 0; 0; 2; 0] 0) _ _ Hp
                         ltac:(vm_compute; discriminate))) ltac:(cbn; lia)).
Defined.
